(** * spotipy.util.credentials: refreshing tokens and redirect-URL parsing

    A shallow embedding of [src/spotipy/util/credentials.py].

    - Python [str] values are Rocq strings holding the UTF-8 encoding of the
      text; every delimiter the code looks for is an ASCII character, and an
      ASCII byte never occurs inside a multi-byte sequence.
    - A call that may raise returns an [outcome].
    - [urlparse] and [parse_qs] are the functions of [urllib.parse]
      (CPython 3.11), transcribed with the keyword arguments left at the
      defaults the repository relies on.
    - The wrapper object is mutable and talks to an external credentials
      manager: its properties run in a state-and-exception monad over the
      wrapper, the outside world and a log of the calls made to the manager.
    - [RefreshingCredentials] and the functions of the module run as
      programs over the outside world, which keep a trace of the calls
      they make on the credentials client, the console and the browser. *)

From Stdlib Require Import ZArith Ascii.
From stdpp Require Import base option list strings gmap.

Local Open Scope Z_scope.

(** ** Exceptions and outcomes *)

Inductive exception :=
| KeyError (msg : string)
| ValueError (msg : string)
| IndexError (msg : string)
| HTTPError (status : Z) (msg : string)
| ConnectionError (msg : string).

Inductive outcome (A : Type) :=
| Return (a : A)
| Raise (e : exception).
Arguments Return {A} a.
Arguments Raise {A} e.

Definition obind {A B} (o : outcome A) (k : A -> outcome B) : outcome B :=
  match o with
  | Return a => k a
  | Raise e => Raise e
  end.

#[global] Instance outcome_ret : MRet outcome := @Return.
#[global] Instance outcome_bind : MBind outcome := fun A B k o => obind o k.

(** ** The [str] methods the code uses *)

Module Str.

Definition code (c : ascii) : nat := nat_of_ascii c.

Definition ch_eqb (a b : ascii) : bool := Ascii.eqb a b.

(** [c in s] for a one-character [c]. *)
Fixpoint contains (c : ascii) (s : string) : bool :=
  match s with
  | EmptyString => false
  | String x s' => ch_eqb x c || contains c s'
  end.

(** [bool(s)]: a string is truthy when it is not empty. *)
Definition nonempty (s : string) : bool :=
  match s with EmptyString => false | String _ _ => true end.

(** [s.find(c)], with [None] for Python's [-1]. *)
Fixpoint find (c : ascii) (s : string) : option nat :=
  match s with
  | EmptyString => None
  | String x s' =>
      if ch_eqb x c then Some 0%nat else S <$> find c s'
  end.

(** [s.rfind(c)]. *)
Fixpoint rfind (c : ascii) (s : string) : option nat :=
  match s with
  | EmptyString => None
  | String x s' =>
      match rfind c s' with
      | Some i => Some (S i)
      | None => if ch_eqb x c then Some 0%nat else None
      end
  end.

(** [s[:n]] and [s[n:]] for [0 <= n]. *)
Fixpoint take (n : nat) (s : string) : string :=
  match n, s with
  | S n', String x s' => String x (take n' s')
  | _, _ => EmptyString
  end.

Fixpoint drop (n : nat) (s : string) : string :=
  match n, s with
  | S n', String _ s' => drop n' s'
  | _, _ => s
  end.

(** [s.find(c, start)], the index counted from the start of [s]. *)
Definition find_from (c : ascii) (start : nat) (s : string) : option nat :=
  (fun i => (start + i)%nat) <$> find c (drop start s).

(** [s.partition(c)]: text before the first [c], whether [c] was found,
    text after it. *)
Fixpoint partition (c : ascii) (s : string) : string * bool * string :=
  match s with
  | EmptyString => (EmptyString, false, EmptyString)
  | String x s' =>
      if ch_eqb x c then (EmptyString, true, s')
      else let '(b, found, a) := partition c s' in (String x b, found, a)
  end.

(** [s.rpartition(c)[2]]: the text after the last [c], all of [s] when
    there is none. *)
Definition after_last (c : ascii) (s : string) : string :=
  match rfind c s with
  | Some i => drop (S i) s
  | None => s
  end.

(** [s.split(c, 1)]: one piece when [c] does not occur, two otherwise. *)
Definition split1 (c : ascii) (s : string) : list string :=
  match partition c s with
  | (b, true, a) => [b; a]
  | (b, false, _) => [b]
  end.

(** [s.split(c)]: always at least one piece. *)
Fixpoint split (c : ascii) (s : string) : list string :=
  match s with
  | EmptyString => [EmptyString]
  | String x s' =>
      if ch_eqb x c then EmptyString :: split c s'
      else match split c s' with
           | p :: ps => String x p :: ps
           | [] => [String x EmptyString]
           end
  end.

(** [s.replace(a, b)] for one-character [a] and [b]. *)
Fixpoint replace (a b : ascii) (s : string) : string :=
  match s with
  | EmptyString => EmptyString
  | String x s' => String (if ch_eqb x a then b else x) (replace a b s')
  end.

(** [s.replace(a, b)] for a one-character [a] and an empty [b]. *)
Fixpoint remove (a : ascii) (s : string) : string :=
  match s with
  | EmptyString => EmptyString
  | String x s' => if ch_eqb x a then remove a s' else String x (remove a s')
  end.

(** [s.lstrip(chars)] for the characters accepted by [p]. *)
Fixpoint lstrip (p : ascii -> bool) (s : string) : string :=
  match s with
  | EmptyString => EmptyString
  | String x s' => if p x then lstrip p s' else s
  end.

Fixpoint forallb (p : ascii -> bool) (s : string) : bool :=
  match s with
  | EmptyString => true
  | String x s' => p x && forallb p s'
  end.

Definition is_ascii (c : ascii) : bool := (code c <? 128)%nat.

(** [s.isascii()]. *)
Definition isascii (s : string) : bool := forallb is_ascii s.

Definition is_upper (c : ascii) : bool := (65 <=? code c)%nat && (code c <=? 90)%nat.
Definition is_lower (c : ascii) : bool := (97 <=? code c)%nat && (code c <=? 122)%nat.
Definition is_digit (c : ascii) : bool := (48 <=? code c)%nat && (code c <=? 57)%nat.

(** [c.isascii() and c.isalpha()]. *)
Definition is_ascii_alpha (c : ascii) : bool := is_upper c || is_lower c.

(** [s.lower()] on text made of ASCII characters. *)
Definition lower_char (c : ascii) : ascii :=
  if is_upper c then ascii_of_nat (code c + 32) else c.

Fixpoint lower (s : string) : string :=
  match s with
  | EmptyString => EmptyString
  | String x s' => String (lower_char x) (lower s')
  end.

(** [s.startswith(c)]. *)
Definition startswith (c : ascii) (s : string) : bool :=
  match s with
  | String x _ => ch_eqb x c
  | EmptyString => false
  end.

Definition eqb (a b : string) : bool := bool_decide (a = b).

Definition hex_value (c : ascii) : option nat :=
  if is_digit c then Some (code c - 48)%nat
  else if (65 <=? code c)%nat && (code c <=? 70)%nat then Some (code c - 55)%nat
  else if (97 <=? code c)%nat && (code c <=? 102)%nat then Some (code c - 87)%nat
  else None.

End Str.

(** ** [urllib.parse] *)

Module urllib.

Inductive ip_version := IPv4Address | IPv6Address.

(** Services of the interpreter that [urllib.parse] calls and that are
    neither part of it nor of the repository. *)
Class Runtime := {
  (** [bytes.decode('utf-8', 'replace')], on the UTF-8 representation. *)
  bytes_decode : string -> string;
  (** [unicodedata.normalize('NFKC', s)]. *)
  unicodedata_normalize : string -> string;
  (** [ipaddress.ip_address(s)]: the kind of address, or [ValueError]. *)
  ipaddress_ip_address : string -> outcome ip_version
}.

Definition scheme_char (c : ascii) : bool :=
  Str.is_lower c || Str.is_upper c || Str.is_digit c
  || Str.ch_eqb c "+" || Str.ch_eqb c "-" || Str.ch_eqb c ".".

Definition uses_params : list string :=
  [EmptyString; "ftp"; "hdl"; "prospero"; "http"; "imap";
   "https"; "shttp"; "rtsp"; "rtspu"; "sip"; "sips";
   "mms"; "sftp"; "tel"].

(** Membership in [_WHATWG_C0_CONTROL_OR_SPACE]. *)
Definition c0_control_or_space (c : ascii) : bool := (Str.code c <=? 32)%nat.

Definition _UNSAFE_URL_BYTES_TO_REMOVE : list ascii :=
  ["009"%char; "013"%char; "010"%char].

Definition _splitparams (url : string) : string * string :=
  if Str.contains "/" url then
    match Str.find_from ";" (default 0%nat (Str.rfind "/" url)) url with
    | None => (url, EmptyString)
    | Some i => (Str.take i url, Str.drop (S i) url)
    end
  else
    match Str.find ";" url with
    | None => (Str.take (String.length url - 1) url, url)
    | Some i => (Str.take i url, Str.drop (S i) url)
    end.

Definition _splitnetloc (url : string) (start : nat) : string * string :=
  let delim :=
    foldl (fun delim c =>
             match Str.find_from c start url with
             | Some wdelim => Nat.min delim wdelim
             | None => delim
             end)
          (String.length url) ["/"%char; "?"%char; "#"%char] in
  (Str.take (delim - start) (Str.drop start url), Str.drop delim url).

Section WithRuntime.
Context `{Runtime}.

Definition _checknetloc (netloc : string) : outcome unit :=
  if negb (Str.nonempty netloc) || Str.isascii netloc then Return tt
  else
    let n := Str.remove "@" netloc in
    let n := Str.remove ":" n in
    let n := Str.remove "#" n in
    let n := Str.remove "?" n in
    let netloc2 := unicodedata_normalize n in
    if Str.eqb n netloc2 then Return tt
    else if existsb (fun c => Str.contains c netloc2)
                    ["/"%char; "?"%char; "#"%char; "@"%char; ":"%char]
    then Raise (ValueError ("netloc '" +:+ netloc +:+ "' contains invalid "
                            +:+ "characters under NFKC normalization"))
    else Return tt.

(** [re.match(r"\Av[a-fA-F0-9]+\..+\Z", hostname)]. *)
Definition ipvfuture_match (hostname : string) : bool :=
  match hostname with
  | String "v" rest =>
      match rest, Str.lstrip (fun c => bool_decide (is_Some (Str.hex_value c))) rest with
      | String d _, String "." tail =>
          bool_decide (is_Some (Str.hex_value d))
          && Str.nonempty tail
          && Str.forallb (fun c => negb (Str.ch_eqb c "010")) tail
      | _, _ => false
      end
  | _ => false
  end.

Definition _check_bracketed_host (hostname : string) : outcome unit :=
  if Str.startswith "v" hostname then
    if negb (ipvfuture_match hostname)
    then Raise (ValueError "IPvFuture address is invalid")
    else Return tt
  else
    ip ← ipaddress_ip_address hostname;
    match ip with
    | IPv4Address => Raise (ValueError "An IPv4 address cannot be in brackets")
    | IPv6Address => Return tt
    end.

Definition _check_bracketed_netloc (netloc : string) : outcome unit :=
  let hostname_and_port := Str.after_last "@" netloc in
  let '(before_bracket, have_open_br, bracketed) :=
    Str.partition "[" hostname_and_port in
  if have_open_br then
    if Str.nonempty before_bracket then Raise (ValueError "Invalid IPv6 URL")
    else
      let '(hostname, _, port) := Str.partition "]" bracketed in
      if Str.nonempty port && negb (Str.startswith ":" port)
      then Raise (ValueError "Invalid IPv6 URL")
      else _check_bracketed_host hostname
  else
    let '(hostname, _, port) := Str.partition ":" hostname_and_port in
    _check_bracketed_host hostname.

(** [urlsplit(url)], with [scheme=''] and [allow_fragments=True]; the
    result is the 5-tuple (scheme, netloc, path, query, fragment). *)
Definition urlsplit (url : string)
  : outcome (string * string * string * string * string) :=
  let url := Str.lstrip c0_control_or_space url in
  let scheme := EmptyString in
  let url := foldl (fun url b => Str.remove b url) url _UNSAFE_URL_BYTES_TO_REMOVE in
  let '(scheme, url) :=
    match Str.find ":" url, url with
    | Some (S i), String c0 _ =>
        if Str.is_ascii_alpha c0 && Str.forallb scheme_char (Str.take (S i) url)
        then (Str.lower (Str.take (S i) url), Str.drop (S (S i)) url)
        else (scheme, url)
    | _, _ => (scheme, url)
    end in
  netloc_url ←
    (if Str.eqb (Str.take 2 url) "//" then
       let '(netloc, url) := _splitnetloc url 2 in
       if (Str.contains "[" netloc && negb (Str.contains "]" netloc))
          || (Str.contains "]" netloc && negb (Str.contains "[" netloc))
       then Raise (ValueError "Invalid IPv6 URL")
       else
         (if Str.contains "[" netloc && Str.contains "]" netloc
          then _check_bracketed_netloc netloc else Return tt) ;;
         Return (netloc, url)
     else Return (EmptyString, url));
  let '(netloc, url) := netloc_url in
  let '(url, fragment) :=
    match Str.split1 "#" url with
    | [u; f] => (u, f)
    | _ => (url, EmptyString)
    end in
  let '(url, query) :=
    match Str.split1 "?" url with
    | [u; q] => (u, q)
    | _ => (url, EmptyString)
    end in
  _checknetloc netloc ;;
  Return (scheme, netloc, url, query, fragment).

Record ParseResult := {
  scheme : string;
  netloc : string;
  path : string;
  params : string;
  query : string;
  fragment : string
}.

Definition urlparse (url : string) : outcome ParseResult :=
  splitresult ← urlsplit url;
  let '(scheme, netloc, url, query, fragment) := splitresult in
  let '(url, params) :=
    if bool_decide (scheme ∈ uses_params) && Str.contains ";" url
    then _splitparams url
    else (url, EmptyString) in
  Return {| scheme := scheme; netloc := netloc; path := url;
            params := params; query := query; fragment := fragment |}.

(** [unquote_to_bytes(string)] on a run of ASCII characters. *)
Definition _hextobyte (item : string) : option ascii :=
  match item with
  | String a (String b _) =>
      match Str.hex_value a, Str.hex_value b with
      | Some h, Some l => Some (ascii_of_nat (16 * h + l))
      | _, _ => None
      end
  | _ => None
  end.

Definition unquote_to_bytes (string_ : string) : string :=
  if negb (Str.nonempty string_) then EmptyString
  else
    match Str.split "%" string_ with
    | [] => string_
    | [_] => string_
    | bits0 :: bits =>
        foldl (fun res item =>
                 match _hextobyte item with
                 | Some byte => res +:+ String byte (Str.drop 2 item)
                 | None => res +:+ "%" +:+ item
                 end)
              bits0 bits
    end.

(** [_asciire.split(string)] for [_asciire = re.compile('([\x00-\x7f]+)')]:
    the pieces alternate between text without ASCII characters (even
    positions, possibly empty) and maximal runs of ASCII characters. *)
Fixpoint _asciire_split_from (in_run : bool) (cur s : string) : list string :=
  match s with
  | EmptyString => if in_run then [cur; EmptyString] else [cur]
  | String c s' =>
      if bool_decide (Str.is_ascii c = in_run)
      then _asciire_split_from in_run (cur +:+ String c EmptyString) s'
      else cur :: _asciire_split_from (Str.is_ascii c) (String c EmptyString) s'
  end.

Definition _asciire_split (s : string) : list string :=
  _asciire_split_from false EmptyString s.

(** The loop [for i in range(1, len(bits), 2)] of [unquote]. *)
Fixpoint unquote_bits (bits : list string) : string :=
  match bits with
  | run :: other :: bits' =>
      bytes_decode (unquote_to_bytes run) +:+ other +:+ unquote_bits bits'
  | _ => EmptyString
  end.

(** [unquote(string)], with [encoding='utf-8'] and [errors='replace']. *)
Definition unquote (string_ : string) : string :=
  if negb (Str.contains "%" string_) then string_
  else
    match _asciire_split string_ with
    | bits0 :: bits => bits0 +:+ unquote_bits bits
    | [] => EmptyString
    end.

(** The body of the loop of [parse_qsl] for one [name_value], with
    [strict_parsing=False]: the pairs it appends to [r]. *)
Definition parse_qsl_field (keep_blank_values : bool) (name_value : string)
  : list (string * string) :=
  if negb (Str.nonempty name_value) then []
  else
    let nv := Str.split1 "=" name_value in
    let nv :=
      if bool_decide (length nv ≠ 2%nat) then
        if keep_blank_values then Some (nv ++ [EmptyString]) else None
      else Some nv in
    match nv with
    | Some (nv0 :: nv1 :: _) =>
        if Str.nonempty nv1 || keep_blank_values then
          let name := Str.replace "+" " " nv0 in
          let name := unquote name in
          let value := Str.replace "+" " " nv1 in
          let value := unquote value in
          [(name, value)]
        else []
    | _ => []
    end.

(** [parse_qsl(qs, keep_blank_values)], with [strict_parsing=False],
    [max_num_fields=None] and [separator='&']. *)
Definition parse_qsl (qs : string) (keep_blank_values : bool)
  : list (string * string) :=
  let query_args := if Str.nonempty qs then Str.split "&" qs else [] in
  flat_map (parse_qsl_field keep_blank_values) query_args.

(** One turn of the loop of [parse_qs]. *)
Definition parse_qs_step (parsed_result : gmap string (list string))
    (name_value : string * string) : gmap string (list string) :=
  let '(name, value) := name_value in
  match parsed_result !! name with
  | Some values => <[name := values ++ [value]]> parsed_result
  | None => <[name := [value]]> parsed_result
  end.

(** [parse_qs(qs)], every keyword argument at its default
    ([keep_blank_values=False]). *)
Definition parse_qs (qs : string) : gmap string (list string) :=
  let pairs := parse_qsl qs false in
  foldl parse_qs_step ∅ pairs.

End WithRuntime.

End urllib.

(** ** [parse_code_from_url] *)

Section ParseCode.
Context `{urllib.Runtime}.

Definition parse_code_from_url (url : string) : outcome string :=
  parsed ← urllib.urlparse url;
  let query := urllib.query parsed in
  let code := urllib.parse_qs query !! "code" in
  match code with
  | None => Raise (KeyError "Parameter `code` not available!")
  | Some code =>
      if bool_decide (1 < length code)%nat
      then Raise (KeyError "Multiple values for `code`!")
      else
        match code with
        | code0 :: _ => Return code0
        | [] => Raise (IndexError "list index out of range")
        end
  end.

End ParseCode.

(** ** Parameters of a query string

    The vocabulary in which the behaviour of [parse_code_from_url] is
    stated: a query string is a sequence of fields separated by [&]; a
    field is [name=value] or a bare [name]; names and values are
    percent-encoded, with [+] standing for a space. *)

Section QueryFields.
Context `{urllib.Runtime}.

(** [unquote_plus(s)]. *)
Definition unquote_plus (s : string) : string :=
  urllib.unquote (Str.replace "+" " " s).

(** The fields of a query string; empty ones ([a=1&&b=2]) do not count. *)
Definition query_fields (qs : string) : list string :=
  filter (fun field => field ≠ EmptyString) (Str.split "&" qs).

(** The text before the first [=], as written. *)
Definition field_raw_name (field : string) : string :=
  (Str.partition "=" field).1.1.

(** The text after the first [=], as written; empty for a bare name. *)
Definition field_raw_value (field : string) : string :=
  (Str.partition "=" field).2.

Definition field_name (field : string) : string :=
  unquote_plus (field_raw_name field).

Definition field_value (field : string) : string :=
  unquote_plus (field_raw_value field).

(** A field is blank when nothing is written after its name. *)
Definition blank (field : string) : Prop := field_raw_value field = EmptyString.

(** Every occurrence of the parameter [name] in the query string. *)
Definition fields_named (name : string) (qs : string) : list string :=
  filter (fun field => field_name field = name) (query_fields qs).

(** The occurrences of [name] that carry a value. *)
Definition valued_fields (name : string) (qs : string) : list string :=
  filter (fun field => ¬ blank field) (fields_named name qs).

(** Text without control characters and spaces, as a URL is once its
    spaces are escaped. *)
Definition printable (s : string) : bool :=
  Str.forallb (fun c => negb (urllib.c0_control_or_space c)) s.

(** The checks [urlsplit] makes on the network location of a URL, in the
    order it makes them; an empty location passes. *)
Definition netloc_checks (netloc : string) : outcome unit :=
  (if (Str.contains "[" netloc && negb (Str.contains "]" netloc))
      || (Str.contains "]" netloc && negb (Str.contains "[" netloc))
   then Raise (ValueError "Invalid IPv6 URL")
   else if Str.contains "[" netloc && Str.contains "]" netloc
        then urllib._check_bracketed_netloc netloc
        else Return tt) ;;
  urllib._checknetloc netloc.

End QueryFields.

(** ** Tokens and the credentials manager *)

Module Token.

(** Modelled from the spec: the [Token] class of [spotipy.auth], which
    [credentials.py] imports and whose source is not at hand. An immutable
    record produced by the credentials manager; [refresh_token] and the
    expiry time are optional. *)
Record t := {
  access_token : string;
  token_type : string;
  scope : string;
  refresh_token : option string;
  expires_at : option Z
}.

(** Modelled from the spec: the [is_expiring] property of that class,
    true when the remaining lifetime of the token falls below a safety
    margin. Its value depends on the clock, which belongs to the world
    [Env] outside the program; how it is computed is left open. *)
Class Expiry (Env : Type) := {
  is_expiring : t -> Env -> bool
}.

End Token.

Module Credentials.

(** Modelled from the spec: the [Credentials] class of [spotipy.auth],
    whose source is not at hand either, as the wrapper sees it: an object
    with a [refresh] method that talks to the authorisation server. The
    call returns a new token or raises, and changes the world either way;
    what it answers is left open. *)
Record t (Env : Type) := {
  refresh : Token.t -> Env -> outcome Token.t * Env
}.
Arguments refresh {Env} _ _ _.

End Credentials.

(** ** [RefreshingToken] *)

Module RefreshingToken.

Section WithWorld.
Context {Env : Type} `{Token.Expiry Env}.

(** The attributes set by [__init__]. *)
Record t := {
  _token : Token.t;
  _credentials : Credentials.t Env
}.

(** A call of [refresh] on a credentials manager, with its argument. *)
Record refresh_call := {
  manager : Credentials.t Env;
  argument : Token.t
}.

(** What a property read can see and change: the wrapper object, the world
    outside, and the record of the calls made to credentials managers. *)
Record state := {
  self : t;
  env : Env;
  calls : list refresh_call
}.

(** Computations that read and write the state and may raise; the state
    reached is kept when an exception is raised. *)
Definition M (A : Type) : Type := state -> outcome A * state.

#[export] Instance M_ret : MRet M := fun A a st => (Return a, st).
#[export] Instance M_bind : MBind M := fun A B k m st =>
  match m st with
  | (Return a, st') => k a st'
  | (Raise e, st') => (Raise e, st')
  end.

(** [self]. *)
Definition get_self : M t := fun st => (Return (self st), st).

(** [self._token = token]. *)
Definition set_token (token : Token.t) : M unit := fun st =>
  (Return tt,
   {| self := {| _token := token; _credentials := _credentials (self st) |};
      env := env st;
      calls := calls st |}).

(** [token.is_expiring]. *)
Definition token_is_expiring (token : Token.t) : M bool := fun st =>
  (Return (Token.is_expiring token (env st)), st).

(** [credentials.refresh(token)]. *)
Definition credentials_refresh (credentials : Credentials.t Env)
    (token : Token.t) : M Token.t := fun st =>
  let '(result, env') := Credentials.refresh credentials token (env st) in
  (result,
   {| self := self st;
      env := env';
      calls := calls st ++ [{| manager := credentials; argument := token |}] |}).

Definition access_token : M string :=
  this ← get_self;
  expiring ← token_is_expiring (_token this);
  (if expiring : bool then
     token ← credentials_refresh (_credentials this) (_token this);
     set_token token
   else mret tt) ;;
  this ← get_self;
  mret (Token.access_token (_token this)).

Definition refresh_token : M (option string) :=
  this ← get_self;
  mret (Token.refresh_token (_token this)).

Definition token_type : M string :=
  this ← get_self;
  mret (Token.token_type (_token this)).

Definition scope : M string :=
  this ← get_self;
  mret (Token.scope (_token this)).

(** The expiry of a token is a number; the wrapper answers [None]. *)
Definition expires_in : M (option Z) := mret None.

Definition expires_at : M (option Z) := mret None.

Definition is_expiring : M bool := mret false.

(** The properties of the class, and [getattr(self, name)]. *)
Inductive property :=
| Access_token
| Refresh_token
| Token_type
| Scope
| Expires_in
| Expires_at
| Is_expiring.

Definition value (p : property) : Type :=
  match p with
  | Access_token | Token_type | Scope => string
  | Refresh_token => option string
  | Expires_in | Expires_at => option Z
  | Is_expiring => bool
  end.

Definition getattr (p : property) : M (value p) :=
  match p with
  | Access_token => access_token
  | Refresh_token => refresh_token
  | Token_type => token_type
  | Scope => scope
  | Expires_in => expires_in
  | Expires_at => expires_at
  | Is_expiring => is_expiring
  end.

End WithWorld.

Arguments t : clear implicits.
Arguments refresh_call : clear implicits.
Arguments state : clear implicits.

End RefreshingToken.

(** ** States around a read of [access_token] *)

Section ReadStates.
Context {Env : Type}.

Import RefreshingToken.

Implicit Types (st : state Env) (token : Token.t).

(** The token held by the wrapper, and the call that refreshes it. *)
Definition held st : Token.t := _token (self st).

Definition refresh_of st : refresh_call Env :=
  {| manager := _credentials (self st); argument := held st |}.

(** The state left by one call of [refresh] on the held token that
    takes the world to [env']: the wrapper is as it was, the call is
    on record. *)
Definition after_call st (env' : Env) : state Env :=
  {| self := self st; env := env'; calls := calls st ++ [refresh_of st] |}.

(** The same state with [token] as the held token. *)
Definition with_token st token : state Env :=
  {| self := {| _token := token; _credentials := _credentials (self st) |};
     env := env st;
     calls := calls st |}.

End ReadStates.

(** ** Sequences of property reads *)

Section ReadSequences.
Context {Env : Type} `{Token.Expiry Env}.

#[global] Instance property_eq_dec : EqDecision RefreshingToken.property.
Proof. solve_decision. Defined.

(** The state after a caller has read the properties [names] one after
    the other, going on after a read that raised. *)
Definition reads (names : list RefreshingToken.property)
    (st : RefreshingToken.state Env) : RefreshingToken.state Env :=
  foldl (fun st name => (RefreshingToken.getattr name st).2) st names.

End ReadSequences.

(** ** [str.strip] *)

Module Whitespace.

(** The characters for which [str.isspace] holds, by their UTF-8
    encoding: one byte (9 to 13, 28 to 32), two bytes (U+0085, U+00A0)
    or three (U+1680, U+2000 to U+200A, U+2028, U+2029, U+202F, U+205F,
    U+3000). *)
Definition space1 (a : ascii) : bool :=
  ((9 <=? Str.code a)%nat && (Str.code a <=? 13)%nat)
  || ((28 <=? Str.code a)%nat && (Str.code a <=? 32)%nat).

Definition space2 (a b : ascii) : bool :=
  (Str.code a =? 194)%nat
  && ((Str.code b =? 133)%nat || (Str.code b =? 160)%nat).

Definition space3 (a b c : ascii) : bool :=
  ((Str.code a =? 225)%nat && (Str.code b =? 154)%nat && (Str.code c =? 128)%nat)
  || ((Str.code a =? 226)%nat && (Str.code b =? 128)%nat
      && (((128 <=? Str.code c)%nat && (Str.code c <=? 138)%nat)
          || (Str.code c =? 168)%nat || (Str.code c =? 169)%nat
          || (Str.code c =? 175)%nat))
  || ((Str.code a =? 226)%nat && (Str.code b =? 129)%nat && (Str.code c =? 159)%nat)
  || ((Str.code a =? 227)%nat && (Str.code b =? 128)%nat && (Str.code c =? 128)%nat).

(** [s.lstrip()]. With [backwards], the bytes of [s] are read from the
    end of a text, so those of a character come last byte first. *)
Fixpoint lstrip_bytes (backwards : bool) (s : string) : string :=
  match s with
  | EmptyString => EmptyString
  | String a s1 =>
      if space1 a then lstrip_bytes backwards s1
      else
        match s1 with
        | String b s2 =>
            if (if backwards then space2 b a else space2 a b)
            then lstrip_bytes backwards s2
            else
              match s2 with
              | String c s3 =>
                  if (if backwards then space3 c b a else space3 a b c)
                  then lstrip_bytes backwards s3
                  else s
              | EmptyString => s
              end
        | EmptyString => s
        end
  end.

Fixpoint rev_onto (s acc : string) : string :=
  match s with
  | EmptyString => acc
  | String a s' => rev_onto s' (String a acc)
  end.

Definition rev (s : string) : string := rev_onto s EmptyString.

Definition lstrip (s : string) : string := lstrip_bytes false s.

(** [s.rstrip()]. *)
Definition rstrip (s : string) : string := rev (lstrip_bytes true (rev s)).

(** [s.strip()]. *)
Definition strip (s : string) : string := rstrip (lstrip s).

End Whitespace.

(** ** The credentials client and the platform *)

Module Client.

(** The operations of [spotipy.auth.Credentials] that
    [RefreshingCredentials] calls, with their arguments. *)
Inductive operation :=
| Request_client_token
| User_authorisation_url (scope state : option string) (show_dialog : bool)
| Request_user_token (code : string)
| Refresh_user_token (refresh_token : string).

(** Modelled from the spec: an instance of the [Credentials] class of
    [spotipy.auth], with every method this file calls on it. Each call
    answers or raises and may change the world; what it answers is left
    open. *)
Record t (Env : Type) := {
  request_client_token : Env -> outcome Token.t * Env;
  user_authorisation_url :
    option string -> option string -> bool -> Env -> outcome string * Env;
  request_user_token : string -> Env -> outcome Token.t * Env;
  refresh_user_token : string -> Env -> outcome Token.t * Env;
  refresh : Token.t -> Env -> outcome Token.t * Env
}.
Arguments request_client_token {Env} _ _.
Arguments user_authorisation_url {Env} _ _ _ _ _.
Arguments request_user_token {Env} _ _ _.
Arguments refresh_user_token {Env} _ _ _.
Arguments refresh {Env} _ _ _.

(** The client as a [RefreshingToken] sees it. *)
Definition as_credentials {Env} (client : t Env) : Credentials.t Env :=
  {| Credentials.refresh := refresh client |}.

(** What a call of [op] on [client] does. *)
Definition result (op : operation) : Type :=
  match op with
  | User_authorisation_url _ _ _ => string
  | _ => Token.t
  end.

Definition perform {Env} (client : t Env) (op : operation)
  : Env -> outcome (result op) * Env :=
  match op with
  | Request_client_token => request_client_token client
  | User_authorisation_url scope state show_dialog =>
      user_authorisation_url client scope state show_dialog
  | Request_user_token code => request_user_token client code
  | Refresh_user_token refresh_token => refresh_user_token client refresh_token
  end.

End Client.

Module Platform.

(** What the file takes from outside itself: the constructor of
    [Credentials] (with the type of request senders it accepts), and the
    built-ins [print], [input] and [webbrowser.open]. Each may raise and
    may change the world. *)
Class t (Env : Type) := {
  Sender : Type;
  Credentials :
    string -> string -> option string -> option Sender ->
    Env -> outcome (Client.t Env) * Env;
  print : string -> Env -> outcome unit * Env;
  webbrowser_open : string -> Env -> outcome bool * Env;
  input : string -> Env -> outcome string * Env
}.

End Platform.

(** ** Programs: the world and what was done to it *)

Module Program.

Section WithPlatform.
Context {Env : Type} `{Platform.t Env}.

(** The calls a program makes on the outside, in the order it makes
    them. *)
Inductive event :=
| Credentials_created (client_id client_secret : string)
    (redirect_uri : option string) (sender : option Platform.Sender)
| Client_called (client : Client.t Env) (op : Client.operation)
| Printed (text : string)
| Browser_opened (url : string)
| Input_read (prompt : string).

Record world := {
  env : Env;
  trace : list event
}.

Definition IO (A : Type) : Type := world -> outcome A * world.

#[global] Instance IO_ret : MRet IO := fun A a w => (Return a, w).
#[global] Instance IO_bind : MBind IO := fun A B k m w =>
  match m w with
  | (Return a, w') => k a w'
  | (Raise e, w') => (Raise e, w')
  end.

(** One call on the outside: it is put on record, then made. *)
Definition outside {A} (what : event) (call : Env -> outcome A * Env) : IO A :=
  fun w =>
    let '(result, env') := call (env w) in
    (result, {| env := env'; trace := trace w ++ [what] |}).

(** A computation of the program itself, which may raise. *)
Definition inside {A} (result : outcome A) : IO A := fun w => (result, w).

Definition new_Credentials (client_id client_secret : string)
    (redirect_uri : option string) (sender : option Platform.Sender)
  : IO (Client.t Env) :=
  outside (Credentials_created client_id client_secret redirect_uri sender)
          (Platform.Credentials client_id client_secret redirect_uri sender).

Definition call (client : Client.t Env) (op : Client.operation)
  : IO (Client.result op) :=
  outside (Client_called client op) (Client.perform client op).

Definition print (text : string) : IO unit :=
  outside (Printed text) (Platform.print text).

Definition webbrowser_open (url : string) : IO bool :=
  outside (Browser_opened url) (Platform.webbrowser_open url).

Definition input (prompt : string) : IO string :=
  outside (Input_read prompt) (Platform.input prompt).

End WithPlatform.

Arguments event Env {_}.
Arguments world Env {_}.

End Program.

(** ** [RefreshingCredentials] *)

Module RefreshingCredentials.

Section WithPlatform.
Context {Env : Type} `{Platform.t Env}.

(** [RefreshingToken(token, credentials)]. *)
Definition RefreshingToken (token : Token.t) (credentials : Client.t Env)
  : RefreshingToken.t Env :=
  {| RefreshingToken._token := token;
     RefreshingToken._credentials := Client.as_credentials credentials |}.

Record t := {
  _client : Client.t Env
}.

Definition __init__ (client_id client_secret : string)
    (redirect_uri : option string) (sender : option Platform.Sender)
  : Program.IO t :=
  client ← Program.new_Credentials client_id client_secret redirect_uri sender;
  mret {| _client := client |}.

Definition request_client_token (self : t) : Program.IO (RefreshingToken.t Env) :=
  token ← Program.call (_client self) Client.Request_client_token;
  mret (RefreshingToken token (_client self)).

Definition user_authorisation_url (self : t)
    (scope state : option string) (show_dialog : bool) : Program.IO string :=
  Program.call (_client self) (Client.User_authorisation_url scope state show_dialog).

Definition request_user_token (self : t) (code : string)
  : Program.IO (RefreshingToken.t Env) :=
  token ← Program.call (_client self) (Client.Request_user_token code);
  mret (RefreshingToken token (_client self)).

Definition refresh_user_token (self : t) (refresh_token : string)
  : Program.IO (RefreshingToken.t Env) :=
  token ← Program.call (_client self) (Client.Refresh_user_token refresh_token);
  mret (RefreshingToken token (_client self)).

End WithPlatform.

Arguments t Env : clear implicits.

End RefreshingCredentials.

(** ** The functions of the module *)

Section ModuleFunctions.
Context {Env : Type} `{Platform.t Env} `{urllib.Runtime}.

Definition request_client_token (client_id client_secret : string)
  : Program.IO (RefreshingToken.t Env) :=
  cred ← RefreshingCredentials.__init__ client_id client_secret None None;
  RefreshingCredentials.request_client_token cred.

Definition prompt_for_user_token (client_id client_secret redirect_uri : string)
    (scope : option string) : Program.IO (RefreshingToken.t Env) :=
  cred ← RefreshingCredentials.__init__ client_id client_secret
           (Some redirect_uri) None;
  url ← RefreshingCredentials.user_authorisation_url cred scope None true;
  Program.print "Opening browser for Spotify login..." ;;
  Program.webbrowser_open url ;;
  pasted ← Program.input "Please paste redirect URL: ";
  let redirected := Whitespace.strip pasted in
  code ← Program.inside (parse_code_from_url redirected);
  RefreshingCredentials.request_user_token cred code.

Definition refresh_user_token (client_id client_secret refresh_token : string)
  : Program.IO (RefreshingToken.t Env) :=
  cred ← RefreshingCredentials.__init__ client_id client_secret None None;
  RefreshingCredentials.refresh_user_token cred refresh_token.

End ModuleFunctions.

(** ** Test doubles

    Concrete collaborators on which the statements below are run. *)

Module Demo.

(** A world with a clock and a scripted authorisation server: each call
    of [refresh] takes one second and consumes the next scripted reply. *)
Record world := {
  now : Z;
  replies : list (outcome Token.t)
}.

(** A token is expiring when less than a minute of its lifetime is left,
    or when its expiry time is not known. *)
Definition expiry : Token.Expiry world := {|
  Token.is_expiring token w :=
    match Token.expires_at token with
    | Some at_ => at_ - now w <? 60
    | None => true
    end
|}.

Definition scripted : Credentials.t world := {|
  Credentials.refresh token w :=
    match replies w with
    | reply :: rest => (reply, {| now := now w + 1; replies := rest |})
    | [] => (Raise (ConnectionError "no route to host"),
             {| now := now w + 1; replies := [] |})
    end
|}.

Definition old_token : Token.t := {|
  Token.access_token := "BQA-old";
  Token.token_type := "Bearer";
  Token.scope := "user-read-email";
  Token.refresh_token := Some "AQD-refresh-1";
  Token.expires_at := Some 3600
|}.

Definition new_token : Token.t := {|
  Token.access_token := "BQC-new";
  Token.token_type := "Bearer";
  Token.scope := "user-read-email playlist-read-private";
  Token.refresh_token := Some "AQD-refresh-2";
  Token.expires_at := Some 7190
|}.

Definition wrapper : RefreshingToken.t world := {|
  RefreshingToken._token := old_token;
  RefreshingToken._credentials := scripted
|}.

(** The wrapper at time [clock], the server about to give [script]. *)
Definition at_time (clock : Z) (script : list (outcome Token.t))
  : RefreshingToken.state world := {|
  RefreshingToken.self := wrapper;
  RefreshingToken.env := {| now := clock; replies := script |};
  RefreshingToken.calls := []
|}.

Definition server_down : exception := HTTPError 503 "Service Unavailable".

(** A runtime for the URLs of the examples, which are written in ASCII
    and name their host without brackets: decoding leaves bytes that are
    valid UTF-8 as they are, normalisation leaves text in normal form as
    it is, and a host name is not an IP address. *)
Definition plain_runtime : urllib.Runtime := {|
  urllib.bytes_decode bytes := bytes;
  urllib.unicodedata_normalize text := text;
  urllib.ipaddress_ip_address text :=
    Raise (ValueError ("'" +:+ text
                       +:+ "' does not appear to be an IPv4 or IPv6 address"))
|}.

(** What [urlparse] makes of [https://example.com/callback?] followed by
    [query], for a [query] without [#]. *)
Definition callback (query : string) : urllib.ParseResult := {|
  urllib.scheme := "https";
  urllib.netloc := "example.com";
  urllib.path := "/callback";
  urllib.params := EmptyString;
  urllib.query := query;
  urllib.fragment := EmptyString
|}.

End Demo.

(** A third token, issued once [Demo.new_token] is itself about to
    expire. *)
Definition newest_token : Token.t := {|
  Token.access_token := "BQD-newest";
  Token.token_type := "Bearer";
  Token.scope := "user-read-email playlist-read-private";
  Token.refresh_token := Some "AQD-refresh-3";
  Token.expires_at := Some 10800
|}.

(** A stage for the functions of the module: a clock, an authorisation
    server that gives scripted answers (one a second), a user who pastes
    [keyboard] when asked, and a screen. *)
Module Stage.

Record world := {
  clock : Z;
  server : list (outcome Token.t);
  keyboard : string;
  has_browser : bool;
  screen : list string
}.

Definition expiry : Token.Expiry world := {|
  Token.is_expiring token w :=
    match Token.expires_at token with
    | Some at_ => at_ - clock w <? 60
    | None => true
    end
|}.

Definition answer (w : world) : outcome Token.t * world :=
  match server w with
  | reply :: rest =>
      (reply, {| clock := clock w + 1; server := rest; keyboard := keyboard w;
                 has_browser := has_browser w; screen := screen w |})
  | [] =>
      (Raise (ConnectionError "no route to host"),
       {| clock := clock w + 1; server := []; keyboard := keyboard w;
          has_browser := has_browser w; screen := screen w |})
  end.

Definition show (text : string) (w : world) : world :=
  {| clock := clock w; server := server w; keyboard := keyboard w;
     has_browser := has_browser w; screen := screen w ++ [text] |}.

Definition client (client_id : string) : Client.t world := {|
  Client.request_client_token := answer;
  Client.user_authorisation_url scope state show_dialog w :=
    (Return ("https://accounts.example.com/authorize?client_id=" +:+ client_id
             +:+ (if show_dialog : bool then "&show_dialog=true"
                  else "&show_dialog=false")), w);
  Client.request_user_token code := answer;
  Client.refresh_user_token refresh_token := answer;
  Client.refresh token := answer
|}.

Definition platform : Platform.t world := {|
  Platform.Sender := unit;
  Platform.Credentials client_id client_secret redirect_uri sender w :=
    (Return (client client_id), w);
  Platform.print text w := (Return tt, show text w);
  Platform.webbrowser_open url w := (Return (has_browser w), w);
  Platform.input prompt w := (Return (keyboard w), show prompt w)
|}.

(** A machine without a browser at time [ticks], the server about to
    give [script], the user about to paste [pasted], with [shown] on the
    screen. *)
Definition scene (ticks : Z) (script : list (outcome Token.t))
    (pasted : string) (shown : list string) : world :=
  {| clock := ticks; server := script; keyboard := pasted;
     has_browser := false; screen := shown |}.

(** The scene at time 0, nothing shown yet. *)
Definition opening (pasted : string) (script : list (outcome Token.t)) : world :=
  scene 0 script pasted [].

End Stage.

(** * Properties of [RefreshingToken] *)

Section RefreshingTokenFacts.
Context {Env : Type} `{Token.Expiry Env}.

Import RefreshingToken.

Implicit Types (st : state Env) (token : Token.t) (e : exception).

Lemma access_token_fresh st :
  Token.is_expiring (held st) (env st) = false ->
  access_token st = (Return (Token.access_token (held st)), st).
Proof.
  intros Hfresh. unfold access_token, mbind, M_bind, get_self, token_is_expiring.
  fold (held st). rewrite Hfresh. reflexivity.
Qed.

Lemma access_token_stale st :
  Token.is_expiring (held st) (env st) = true ->
  access_token st =
    match Credentials.refresh (_credentials (self st)) (held st) (env st) with
    | (Return token', env') =>
        (Return (Token.access_token token'), with_token (after_call st env') token')
    | (Raise e, env') => (Raise e, after_call st env')
    end.
Proof.
  intros Hstale.
  unfold access_token, mbind, M_bind, get_self, token_is_expiring, credentials_refresh.
  fold (held st). rewrite Hstale.
  destruct (Credentials.refresh _ _ _) as [[token'|e] env']; reflexivity.
Qed.

Lemma passthrough_reads st :
  refresh_token st = (Return (Token.refresh_token (held st)), st) /\
  token_type st = (Return (Token.token_type (held st)), st) /\
  scope st = (Return (Token.scope (held st)), st).
Proof. repeat split. Qed.

(** C1: when the held token reports itself expiring, a read of
    [access_token] makes one call of [refresh] on the wrapper's credentials
    manager, with the held token as argument; when that call returns
    [token'], the wrapper holds [token'] afterwards and the read returns
    the access-token value of [token']. *)
Theorem access_token_refreshes_expiring_token st token' (env' : Env) :
  Token.is_expiring (_token (self st)) (env st) = true ->
  Credentials.refresh (_credentials (self st)) (_token (self st)) (env st)
    = (Return token', env') ->
  access_token st =
    (Return (Token.access_token token'),
     {| self := {| _token := token'; _credentials := _credentials (self st) |};
        env := env';
        calls := calls st ++ [{| manager := _credentials (self st);
                                 argument := _token (self st) |}] |}).
Proof.
  intros Hstale Hcall. rewrite (access_token_stale st Hstale).
  unfold held. rewrite Hcall. reflexivity.
Qed.

(** C2: when the held token is expiring and the call of [refresh] raises
    [e], the read of [access_token] raises the same [e] and the wrapper
    is left as it was, holding the old token; the token being still
    expiring in the world the failed call left, the next read calls
    [refresh] once more, with the same token. *)
Theorem access_token_failed_refresh_retried st e (env' : Env) :
  Token.is_expiring (_token (self st)) (env st) = true ->
  Credentials.refresh (_credentials (self st)) (_token (self st)) (env st)
    = (Raise e, env') ->
  Token.is_expiring (_token (self st)) env' = true ->
  let call := {| manager := _credentials (self st);
                 argument := _token (self st) |} in
  let st' := {| self := self st; env := env'; calls := calls st ++ [call] |} in
  access_token st = (Raise e, st') /\
  calls (access_token st').2 = calls st ++ [call; call].
Proof.
  intros Hstale Hcall Hstill call st'. split.
  - rewrite (access_token_stale st Hstale). unfold held. rewrite Hcall. reflexivity.
  - rewrite (access_token_stale st' Hstill).
    clear Hcall.
    destruct (Credentials.refresh _ _ _) as [[token''|e'] env''];
      cbn; rewrite <- app_assoc; reflexivity.
Qed.

(** C3: when the held token does not report itself expiring, a read of
    [access_token] returns the access-token value of the held token and
    leaves the whole state as it was: the wrapper, the world, and the
    record of calls, to which nothing is added. *)
Theorem access_token_fresh_no_call st :
  Token.is_expiring (_token (self st)) (env st) = false ->
  access_token st = (Return (Token.access_token (_token (self st))), st).
Proof. apply access_token_fresh. Qed.

(** C4: whatever the wrapper holds, [expires_in] and [expires_at] read
    as [None] and [is_expiring] reads as [False]. *)
Theorem expiry_is_never_exposed st :
  expires_in st = (Return None, st) /\
  expires_at st = (Return None, st) /\
  is_expiring st = (Return false, st).
Proof. repeat split. Qed.

(** C5: in every state, expiring token or not, [refresh_token],
    [token_type] and [scope] return the fields of the held token and leave
    the state as it was, so no call of [refresh] is made; and in the state
    left by a read of [access_token] that refreshed the token to [token'],
    the three reads return the fields of [token']. *)
Theorem field_reads_pass_through st :
  (refresh_token st = (Return (Token.refresh_token (_token (self st))), st) /\
   token_type st = (Return (Token.token_type (_token (self st))), st) /\
   scope st = (Return (Token.scope (_token (self st))), st)) /\
  forall token' (env' : Env),
    Token.is_expiring (_token (self st)) (env st) = true ->
    Credentials.refresh (_credentials (self st)) (_token (self st)) (env st)
      = (Return token', env') ->
    let st' := (access_token st).2 in
    refresh_token st' = (Return (Token.refresh_token token'), st') /\
    token_type st' = (Return (Token.token_type token'), st') /\
    scope st' = (Return (Token.scope token'), st').
Proof.
  split; [apply passthrough_reads|].
  intros token' env' Hstale Hcall st'.
  assert (held st' = token') as <-.
  { unfold st'. rewrite (access_token_stale st Hstale). unfold held.
    rewrite Hcall. reflexivity. }
  apply passthrough_reads.
Qed.

(** C6: a read of any property leaves the credentials reference of the
    wrapper as it was; a read of a property other than [access_token]
    leaves the whole state as it was, and so does a read of
    [access_token] when the held token is not expiring; hence the held
    token is different after a read only if the read is of
    [access_token] and the held token was expiring. *)
Theorem held_token_replaced_only_by_stale_access_read (p : property) st :
  let st' := (getattr p st).2 in
  _credentials (self st') = _credentials (self st) /\
  (p <> Access_token -> st' = st) /\
  (Token.is_expiring (_token (self st)) (env st) = false -> st' = st) /\
  (_token (self st') <> _token (self st) ->
   p = Access_token /\ Token.is_expiring (_token (self st)) (env st) = true).
Proof.
  intros st'.
  assert (Hother : p <> Access_token -> st' = st).
  { intros Hp. destruct p; try reflexivity. contradiction. }
  assert (Hfresh : Token.is_expiring (_token (self st)) (env st) = false -> st' = st).
  { intros Hf. destruct p; try reflexivity.
    unfold st'; cbn [getattr]. rewrite (access_token_fresh st Hf). reflexivity. }
  split; [|split; [assumption|split; [assumption|intros Hchanged; split]]].
  - destruct p; try reflexivity.
    unfold st'; cbn [getattr].
    destruct (Token.is_expiring (held st) (env st)) eqn:Hx.
    + rewrite (access_token_stale st Hx).
      destruct (Credentials.refresh _ _ _) as [[token'|e] env']; reflexivity.
    + rewrite (access_token_fresh st Hx). reflexivity.
  - destruct p; try reflexivity; exfalso; apply Hchanged; rewrite Hother; congruence.
  - destruct (Token.is_expiring (_token (self st)) (env st)) eqn:Hx; [reflexivity|].
    exfalso. apply Hchanged. rewrite Hfresh; reflexivity.
Qed.

(** X1: the value a read of [access_token] returns is the access-token
    value of the token the wrapper holds once the read is over, whether
    the token was refreshed or not. *)
Theorem access_token_returns_value_of_held_token st value st' :
  access_token st = (Return value, st') ->
  value = Token.access_token (_token (self st')).
Proof.
  destruct (Token.is_expiring (held st) (env st)) eqn:Hx.
  - rewrite (access_token_stale st Hx).
    destruct (Credentials.refresh _ _ _) as [[token'|e] env'];
      [|discriminate].
    intros [= <- <-]. reflexivity.
  - rewrite (access_token_fresh st Hx). intros [= <- <-]. reflexivity.
Qed.

(** X2: whatever the credentials manager answers, a read of
    [access_token] makes one call of [refresh] when the held token is
    expiring and none when it is not; the calls made before stay on
    record. *)
Theorem access_token_calls_once_iff_expiring st :
  calls (access_token st).2 =
    calls st ++
    (if Token.is_expiring (_token (self st)) (env st)
     then [{| manager := _credentials (self st); argument := _token (self st) |}]
     else []).
Proof.
  destruct (Token.is_expiring (_token (self st)) (env st)) eqn:Hx.
  - rewrite (access_token_stale st Hx).
    destruct (Credentials.refresh _ _ _) as [[token'|e] env']; reflexivity.
  - rewrite (access_token_fresh st Hx), app_nil_r. reflexivity.
Qed.

(** X3: once a read has refreshed the token to one that is not expiring,
    the next read returns the same value without calling the credentials
    manager and changes nothing. *)
Theorem access_token_settles_after_refresh st token' (env' : Env) :
  Token.is_expiring (_token (self st)) (env st) = true ->
  Credentials.refresh (_credentials (self st)) (_token (self st)) (env st)
    = (Return token', env') ->
  Token.is_expiring token' env' = false ->
  let st' := (access_token st).2 in
  access_token st = (Return (Token.access_token token'), st') /\
  access_token st' = (Return (Token.access_token token'), st').
Proof.
  intros Hstale Hcall Hfresh st'.
  assert (Hread : access_token st
            = (Return (Token.access_token token'),
               with_token (after_call st env') token')).
  { rewrite (access_token_stale st Hstale). unfold held. rewrite Hcall.
    reflexivity. }
  unfold st'. rewrite Hread. split; [reflexivity|].
  apply (access_token_fresh (with_token (after_call st env') token')).
  exact Hfresh.
Qed.

(** X4: when the credentials manager answers with a token that is itself
    expiring, the read returns its value all the same, and the next read
    asks for a refresh of that new token, not of the one held at first. *)
Theorem access_token_refreshes_newest_token st token' (env' : Env) :
  Token.is_expiring (_token (self st)) (env st) = true ->
  Credentials.refresh (_credentials (self st)) (_token (self st)) (env st)
    = (Return token', env') ->
  Token.is_expiring token' env' = true ->
  let st' := (access_token st).2 in
  access_token st = (Return (Token.access_token token'), st') /\
  calls (access_token st').2 =
    calls st ++
    [{| manager := _credentials (self st); argument := _token (self st) |};
     {| manager := _credentials (self st); argument := token' |}].
Proof.
  intros Hstale Hcall Hstill st'.
  assert (Hread : access_token st
            = (Return (Token.access_token token'),
               with_token (after_call st env') token')).
  { rewrite (access_token_stale st Hstale). unfold held. rewrite Hcall.
    reflexivity. }
  unfold st'. rewrite Hread. cbn [snd]. split; [reflexivity|].
  rewrite (access_token_stale (with_token (after_call st env') token') Hstill).
  clear Hcall Hread.
  destruct (Credentials.refresh _ _ _) as [[token''|e] env''];
    cbn; rewrite <- app_assoc; reflexivity.
Qed.

Lemma getattr_step (name : property) st :
  _credentials (self (getattr name st).2) = _credentials (self st) /\
  exists made,
    calls (getattr name st).2 = calls st ++ made /\
    Forall (fun call => manager call = _credentials (self st)) made /\
    (length made <= if decide (name = Access_token) then 1 else 0)%nat.
Proof.
  destruct (decide (name = Access_token)) as [->|Hother].
  - cbn [getattr].
    destruct (Token.is_expiring (held st) (env st)) eqn:Hx.
    + rewrite (access_token_stale st Hx).
      destruct (Credentials.refresh _ _ _) as [[token'|e] env'];
        (split; [reflexivity|]); exists [refresh_of st];
        (split; [reflexivity|]); (split; [repeat constructor | cbn; lia]).
    + rewrite (access_token_fresh st Hx). split; [reflexivity|].
      exists []. rewrite app_nil_r. repeat split; [constructor | cbn; lia].
  - assert ((getattr name st).2 = st) as ->
      by (destruct name; try reflexivity; contradiction).
    split; [reflexivity|]. exists []. rewrite app_nil_r.
    repeat split; [constructor | cbn; lia].
Qed.

(** X5: over any sequence of property reads, the wrapper keeps its
    credentials manager; every call made during the sequence is a call
    of [refresh] on that manager, and there are at most as many calls as
    there are reads of [access_token] in the sequence. *)
Theorem reads_keep_credentials (names : list property) st :
  _credentials (self (reads names st)) = _credentials (self st) /\
  exists made,
    calls (reads names st) = calls st ++ made /\
    Forall (fun call => manager call = _credentials (self st)) made /\
    (length made <= length (filter (fun name => name = Access_token) names))%nat.
Proof.
  revert st. induction names as [|name names IH]; intros st.
  - split; [reflexivity|]. exists []. rewrite app_nil_r.
    repeat split; [constructor | cbn; lia].
  - cbn [reads foldl]. fold (reads names (getattr name st).2).
    destruct (getattr_step name st) as (Hcred & made1 & Hcalls1 & Hall1 & Hlen1).
    destruct (IH (getattr name st).2) as (Hcred' & made2 & Hcalls2 & Hall2 & Hlen2).
    split; [congruence|]. exists (made1 ++ made2).
    split; [rewrite Hcalls2, Hcalls1, app_assoc; reflexivity|].
    split.
    + apply Forall_app. split; [exact Hall1|].
      rewrite Hcred in Hall2. exact Hall2.
    + rewrite length_app, (filter_cons _ name).
      destruct (decide (name = Access_token)); cbn [length]; lia.
Qed.

End RefreshingTokenFacts.

(** ** The statements on the test double

    The token of [Demo.wrapper] expires at 3600: it is fresh at time 0 and
    expiring at time 3590. *)

Section RefreshingTokenRuns.

Import RefreshingToken.

#[local] Existing Instance Demo.expiry.

Lemma access_token_refreshes_expiring_token_witness :
  let st := Demo.at_time 3590 [Return Demo.new_token] in
  Token.is_expiring Demo.old_token (env st) = true /\
  access_token st =
    (Return "BQC-new",
     {| self := {| _token := Demo.new_token; _credentials := Demo.scripted |};
        env := {| Demo.now := 3591; Demo.replies := [] |};
        calls := [{| manager := Demo.scripted; argument := Demo.old_token |}] |}).
Proof.
  split; [reflexivity|].
  apply (access_token_refreshes_expiring_token
           (Demo.at_time 3590 [Return Demo.new_token])
           Demo.new_token {| Demo.now := 3591; Demo.replies := [] |});
    reflexivity.
Defined.

Lemma access_token_failed_refresh_retried_witness :
  let st := Demo.at_time 3590 [Raise Demo.server_down; Return Demo.new_token] in
  let call := {| manager := Demo.scripted; argument := Demo.old_token |} in
  let st' := {| self := Demo.wrapper;
                env := {| Demo.now := 3591; Demo.replies := [Return Demo.new_token] |};
                calls := [call] |} in
  access_token st = (Raise (HTTPError 503 "Service Unavailable"), st') /\
  calls (access_token st').2 = [call; call].
Proof.
  apply (access_token_failed_refresh_retried
           (Demo.at_time 3590 [Raise Demo.server_down; Return Demo.new_token])
           Demo.server_down
           {| Demo.now := 3591; Demo.replies := [Return Demo.new_token] |});
    reflexivity.
Defined.

Lemma access_token_fresh_no_call_witness :
  let st := Demo.at_time 0 [Return Demo.new_token] in
  Token.is_expiring Demo.old_token (env st) = false /\
  access_token st = (Return "BQA-old", st).
Proof.
  split; [reflexivity|].
  apply (access_token_fresh_no_call (Demo.at_time 0 [Return Demo.new_token])).
  reflexivity.
Defined.

Lemma field_reads_pass_through_witness :
  let st := Demo.at_time 3590 [Return Demo.new_token] in
  let st' := (access_token st).2 in
  (refresh_token st = (Return (Some "AQD-refresh-1"), st) /\
   token_type st = (Return "Bearer", st) /\
   scope st = (Return "user-read-email", st)) /\
  (refresh_token st' = (Return (Some "AQD-refresh-2"), st') /\
   token_type st' = (Return "Bearer", st') /\
   scope st' = (Return "user-read-email playlist-read-private", st')).
Proof.
  destruct (field_reads_pass_through (Demo.at_time 3590 [Return Demo.new_token]))
    as [Hheld Hafter].
  split; [exact Hheld|].
  apply (Hafter Demo.new_token {| Demo.now := 3591; Demo.replies := [] |});
    reflexivity.
Defined.

Lemma held_token_replaced_only_by_stale_access_read_witness :
  let st := Demo.at_time 3590 [Return Demo.new_token] in
  _token (self (getattr Access_token st).2) <> _token (self st) /\
  (getattr Scope st).2 = st /\
  (getattr Access_token (Demo.at_time 0 [Return Demo.new_token])).2
    = Demo.at_time 0 [Return Demo.new_token] /\
  Token.is_expiring (_token (self st)) (env st) = true.
Proof.
  pose proof (held_token_replaced_only_by_stale_access_read
                Access_token (Demo.at_time 3590 [Return Demo.new_token]))
    as (_ & _ & _ & Honly).
  pose proof (held_token_replaced_only_by_stale_access_read
                Scope (Demo.at_time 3590 [Return Demo.new_token]))
    as (_ & Hother & _ & _).
  pose proof (held_token_replaced_only_by_stale_access_read
                Access_token (Demo.at_time 0 [Return Demo.new_token]))
    as (_ & _ & Hfresh & _).
  assert (Hchanged : _token (self (getattr Access_token
            (Demo.at_time 3590 [Return Demo.new_token])).2) <> Demo.old_token)
    by (cbv; discriminate).
  split; [exact Hchanged|].
  split; [apply Hother; discriminate|].
  split; [apply Hfresh; reflexivity|].
  exact (proj2 (Honly Hchanged)).
Defined.

Lemma access_token_returns_value_of_held_token_witness :
  access_token (Demo.at_time 3590 [Return Demo.new_token])
    = (Return "BQC-new",
       {| self := {| _token := Demo.new_token; _credentials := Demo.scripted |};
          env := {| Demo.now := 3591; Demo.replies := [] |};
          calls := [{| manager := Demo.scripted; argument := Demo.old_token |}] |}) /\
  "BQC-new" = Token.access_token Demo.new_token.
Proof.
  split; [reflexivity|].
  apply (access_token_returns_value_of_held_token
           (Demo.at_time 3590 [Return Demo.new_token]) "BQC-new"
           {| self := {| _token := Demo.new_token; _credentials := Demo.scripted |};
              env := {| Demo.now := 3591; Demo.replies := [] |};
              calls := [{| manager := Demo.scripted;
                           argument := Demo.old_token |}] |}).
  reflexivity.
Defined.

Lemma access_token_settles_after_refresh_witness :
  let st := Demo.at_time 3590 [Return Demo.new_token] in
  access_token st = (Return "BQC-new", (access_token st).2) /\
  access_token (access_token st).2 = (Return "BQC-new", (access_token st).2).
Proof.
  apply (access_token_settles_after_refresh
           (Demo.at_time 3590 [Return Demo.new_token])
           Demo.new_token {| Demo.now := 3591; Demo.replies := [] |});
    reflexivity.
Defined.

(** At 7150 both the old token (3600) and the new one (7190) are
    expiring. *)
Lemma access_token_refreshes_newest_token_witness :
  let st := Demo.at_time 7150 [Return Demo.new_token; Return newest_token] in
  access_token st = (Return "BQC-new", (access_token st).2) /\
  calls (access_token (access_token st).2).2 =
    [{| manager := Demo.scripted; argument := Demo.old_token |};
     {| manager := Demo.scripted; argument := Demo.new_token |}].
Proof.
  apply (access_token_refreshes_newest_token
           (Demo.at_time 7150 [Return Demo.new_token; Return newest_token])
           Demo.new_token
           {| Demo.now := 7151; Demo.replies := [Return newest_token] |});
    reflexivity.
Defined.

End RefreshingTokenRuns.

(** * Properties of [parse_code_from_url] *)

Section ParseCodeFacts.
Context `{urllib.Runtime}.

Implicit Types (qs field name url : string) (parsed : urllib.ParseResult).

Lemma partition_not_found c s before after :
  Str.partition c s = (before, false, after) ->
  before = s /\ after = EmptyString.
Proof.
  revert before after. induction s as [|x s IH]; intros before after; cbn.
  - intros [= <- <-]. done.
  - destruct (Str.ch_eqb x c); [discriminate|].
    destruct (Str.partition c s) as [[b found] a].
    intros [= <- -> <-]. destruct (IH b a eq_refl) as [-> ->]. done.
Qed.

Lemma nonempty_iff s : Str.nonempty s = true <-> s <> EmptyString.
Proof. destruct s; cbn; split; congruence. Qed.

(** Settles [if decide (keep = true \/ ¬ blank field) ...] once [keep] and
    the value of the field are known. *)
Local Ltac kept_or_blank :=
  match goal with
  | |- context [decide ?P] =>
      let Hd := fresh "Hd" in
      destruct (decide P) as [Hd|Hd];
      [ first [ reflexivity
              | exfalso; destruct Hd as [Hd|Hd];
                [discriminate | apply Hd; reflexivity] ]
      | first [ reflexivity
              | exfalso; apply Hd;
                first [left; reflexivity | right; discriminate] ] ]
  end.

(** One field contributes one pair, unless it is blank and blanks are
    not kept. *)
Lemma parse_qsl_field_spec (keep : bool) field :
  field <> EmptyString ->
  urllib.parse_qsl_field keep field =
    if decide (keep = true \/ ¬ blank field)
    then [(field_name field, field_value field)]
    else [].
Proof.
  intros Hfield. unfold urllib.parse_qsl_field.
  rewrite (proj2 (nonempty_iff field) Hfield). cbn [negb].
  unfold field_name, field_value, blank, field_raw_name, field_raw_value, Str.split1.
  destruct (Str.partition "=" field) as [[before found] after] eqn:Hpart.
  destruct found; cbn.
  - destruct after as [|a after]; destruct keep; cbn; kept_or_blank.
  - apply partition_not_found in Hpart as [-> ->].
    destruct keep; cbn; kept_or_blank.
Qed.

Lemma parse_qsl_spec qs (keep : bool) :
  urllib.parse_qsl qs keep =
    (fun field => (field_name field, field_value field))
      <$> filter (fun field => keep = true \/ ¬ blank field) (query_fields qs).
Proof.
  unfold urllib.parse_qsl, query_fields.
  assert (Hgen : forall pieces : list string,
    flat_map (urllib.parse_qsl_field keep) pieces =
      (fun field => (field_name field, field_value field))
        <$> filter (fun field => keep = true \/ ¬ blank field)
              (filter (fun field => field <> EmptyString) pieces)).
  { induction pieces as [|piece pieces IH]; [reflexivity|].
    cbn [flat_map]. rewrite IH. rewrite (filter_cons _ piece).
    destruct (decide (piece <> EmptyString)) as [Hne|Heq].
    - rewrite (parse_qsl_field_spec keep piece Hne). rewrite (filter_cons _ piece).
      destruct (decide (keep = true \/ ¬ blank piece)); reflexivity.
    - assert (piece = EmptyString) as ->
        by (destruct piece; [reflexivity | exfalso; apply Heq; discriminate]).
      reflexivity. }
  destruct qs as [|c qs]; [reflexivity|]. apply Hgen.
Qed.

Lemma parse_qs_fold_lookup (pairs : list (string * string))
    (m : gmap string (list string)) name :
  foldl urllib.parse_qs_step m pairs !! name =
    match m !! name, (filter (fun pair => pair.1 = name) pairs).*2 with
    | Some old, values => Some (old ++ values)
    | None, [] => None
    | None, values => Some values
    end.
Proof.
  revert m. induction pairs as [|[n v] pairs IH]; intros m.
  - cbn. destruct (m !! name); [rewrite app_nil_r|]; reflexivity.
  - cbn [foldl]. rewrite IH. rewrite (filter_cons _ (n, v)). cbn [fst].
    unfold urllib.parse_qs_step.
    destruct (decide (n = name)) as [->|Hne].
    + destruct (m !! name) as [old|] eqn:Hm; rewrite lookup_insert_eq; cbn.
      * rewrite <- app_assoc. reflexivity.
      * reflexivity.
    + destruct (m !! n) as [old|] eqn:Hn; rewrite lookup_insert_ne by done;
        reflexivity.
Qed.

(** The dictionary of [parse_qs] maps a name to the decoded values of its
    occurrences that carry one, in order, and has no entry for a name all
    of whose occurrences are blank. *)
Lemma parse_qs_lookup qs name :
  urllib.parse_qs qs !! name =
    match field_value <$> valued_fields name qs with
    | [] => None
    | values => Some values
    end.
Proof.
  unfold urllib.parse_qs. rewrite parse_qs_fold_lookup, lookup_empty.
  rewrite parse_qsl_spec.
  assert (Hvalues :
    (filter (fun pair : string * string => pair.1 = name)
       ((fun field => (field_name field, field_value field))
          <$> filter (fun field => false = true \/ ¬ blank field) (query_fields qs))).*2
    = field_value <$> valued_fields name qs).
  { unfold valued_fields, fields_named.
    rewrite (list_filter_iff (fun field => false = true \/ ¬ blank field)
               (fun field => ¬ blank field))
      by (intros field; split;
          [intros [Hk|Hv]; [discriminate|assumption] | right; assumption]).
    induction (query_fields qs) as [|field fields IH]; [reflexivity|].
    rewrite !(filter_cons _ field).
    destruct (decide (¬ blank field)) as [Hv|Hb];
      destruct (decide (field_name field = name)) as [Hn|Hn];
      cbn [fmap list_fmap];
      rewrite ?(filter_cons _ (field_name field, field_value field)),
        ?(filter_cons _ field); cbn [fst].
    - rewrite !decide_True by assumption. cbn. f_equal. apply IH.
    - rewrite decide_False by assumption. apply IH.
    - rewrite decide_False by assumption. apply IH.
    - apply IH. }
  rewrite Hvalues. reflexivity.
Qed.

(** What [parse_code_from_url] does, by the occurrences of [code] that
    carry a value. *)
Lemma parse_code_from_url_spec url parsed :
  urllib.urlparse url = Return parsed ->
  parse_code_from_url url =
    match field_value <$> valued_fields "code" (urllib.query parsed) with
    | [] => Raise (KeyError "Parameter `code` not available!")
    | [value] => Return value
    | _ => Raise (KeyError "Multiple values for `code`!")
    end.
Proof.
  intros Hparsed. unfold parse_code_from_url. rewrite Hparsed. cbn.
  rewrite parse_qs_lookup.
  destruct (field_value <$> valued_fields "code" (urllib.query parsed))
    as [|v [|v' vs]]; reflexivity.
Qed.

(** A single field named [name] that is not blank is the one field
    named [name] that carries a value. *)
Lemma valued_fields_single name qs field :
  fields_named name qs = [field] -> ¬ blank field ->
  valued_fields name qs = [field].
Proof.
  intros Hone Hvalue. unfold valued_fields. rewrite Hone.
  rewrite filter_cons_True by assumption. reflexivity.
Qed.

Lemma valued_fields_all_blank name qs :
  Forall blank (fields_named name qs) -> valued_fields name qs = [].
Proof.
  unfold valued_fields. induction 1 as [|field fields Hblank _ IH]; [reflexivity|].
  rewrite filter_cons_False by (intros Hvalue; apply Hvalue, Hblank). exact IH.
Qed.

(** C7: when exactly one field of the query string of the URL is named
    [code] and carries a value, and that value is [ABC],
    [parse_code_from_url] returns [ABC]. The value is what is written
    after [=], decoded; it is not blank. *)
Theorem parse_code_single_code url parsed field ABC :
  urllib.urlparse url = Return parsed ->
  valued_fields "code" (urllib.query parsed) = [field] ->
  field_value field = ABC ->
  parse_code_from_url url = Return ABC.
Proof.
  intros Hparsed Hone <-.
  rewrite (parse_code_from_url_spec url parsed Hparsed), Hone. reflexivity.
Qed.

(** C8: when the query string of the URL has no field named [code],
    [parse_code_from_url] raises the [KeyError] that says the parameter
    is not available; the function makes no second attempt. *)
Theorem parse_code_missing_code url parsed :
  urllib.urlparse url = Return parsed ->
  fields_named "code" (urllib.query parsed) = [] ->
  parse_code_from_url url = Raise (KeyError "Parameter `code` not available!").
Proof.
  intros Hparsed Hnone.
  rewrite (parse_code_from_url_spec url parsed Hparsed).
  unfold valued_fields. rewrite Hnone. reflexivity.
Qed.

(** C9, as amended: when more than one field of the query string is
    named [code] and carries a value, [parse_code_from_url] raises the
    [KeyError] that reports multiple values, which is not the one raised
    for a missing parameter. Fields named [code] without a value are not
    counted. *)
Theorem parse_code_multiple_valued_codes url parsed :
  urllib.urlparse url = Return parsed ->
  (1 < length (valued_fields "code" (urllib.query parsed)))%nat ->
  parse_code_from_url url = Raise (KeyError "Multiple values for `code`!") /\
  parse_code_from_url url <> Raise (KeyError "Parameter `code` not available!").
Proof.
  intros Hparsed Hmany.
  rewrite (parse_code_from_url_spec url parsed Hparsed).
  destruct (valued_fields "code" (urllib.query parsed)) as [|f1 [|f2 fields]];
    cbn in Hmany; try lia.
  split; [reflexivity | discriminate].
Qed.

(** C10: when the query string has fields named [code] and none of them
    carries a value, as in [?code=], the dictionary built by [parse_qs]
    has no entry for [code], and [parse_code_from_url] raises the
    [KeyError] for a missing parameter; it does not return the empty
    string. *)
Theorem parse_code_blank_code url parsed :
  urllib.urlparse url = Return parsed ->
  fields_named "code" (urllib.query parsed) <> [] ->
  Forall blank (fields_named "code" (urllib.query parsed)) ->
  urllib.parse_qs (urllib.query parsed) !! "code" = None /\
  parse_code_from_url url = Raise (KeyError "Parameter `code` not available!") /\
  parse_code_from_url url <> Return EmptyString.
Proof.
  intros Hparsed _ Hblank.
  rewrite (parse_code_from_url_spec url parsed Hparsed), parse_qs_lookup.
  rewrite (valued_fields_all_blank _ _ Hblank).
  repeat split. discriminate.
Qed.

End ParseCodeFacts.

(** ** The query string in the text of a URL *)

Section UrlText.
Context `{urllib.Runtime}.

Implicit Types (s base tail : string) (c : ascii) (p : ascii -> bool).

Lemma append_empty_r s : s +:+ EmptyString = s.
Proof.
  induction s as [|x s IH]; [reflexivity|].
  change (String x (s +:+ EmptyString) = String x s). rewrite IH. reflexivity.
Qed.

Lemma forallb_contains p c s :
  p c = false -> Str.forallb p s = true -> Str.contains c s = false.
Proof.
  intros Hc. induction s as [|x s IH]; [reflexivity|]. simpl.
  destruct (Str.ch_eqb x c) eqn:Hx.
  - apply Ascii.eqb_eq in Hx as ->. rewrite Hc. discriminate.
  - destruct (p x); [exact IH | discriminate].
Qed.

Lemma forallb_app p s1 s2 :
  Str.forallb p (s1 +:+ s2) = Str.forallb p s1 && Str.forallb p s2.
Proof.
  induction s1 as [|x s1 IH]; [reflexivity|]. simpl. rewrite IH.
  destruct (p x); reflexivity.
Qed.



Lemma contains_app c s1 s2 :
  Str.contains c (s1 +:+ s2) = Str.contains c s1 || Str.contains c s2.
Proof.
  induction s1 as [|x s1 IH]; [reflexivity|]. simpl. rewrite IH.
  destruct (Str.ch_eqb x c); reflexivity.
Qed.

Lemma contains_drop c n s :
  Str.contains c s = false -> Str.contains c (Str.drop n s) = false.
Proof.
  revert s. induction n as [|n IH]; intros [|x s]; simpl; try done.
  destruct (Str.ch_eqb x c); [discriminate | apply IH].
Qed.


Lemma drop_app_within n s1 s2 :
  (n <= String.length s1)%nat -> Str.drop n (s1 +:+ s2) = Str.drop n s1 +:+ s2.
Proof.
  revert s1. induction n as [|n IH]; intros [|x s1]; simpl; try done; try lia.
  intros Hn. apply IH. lia.
Qed.

Lemma take_app_within n s1 s2 :
  (n <= String.length s1)%nat -> Str.take n (s1 +:+ s2) = Str.take n s1.
Proof.
  revert s1. induction n as [|n IH]; intros [|x s1]; simpl; try done; try lia.
  intros Hn. rewrite IH by lia. reflexivity.
Qed.

Lemma drop_drop n m s : Str.drop n (Str.drop m s) = Str.drop (m + n) s.
Proof.
  revert s. induction m as [|m IH]; intros s; [reflexivity|].
  destruct s as [|x s]; simpl; [destruct n; reflexivity | apply IH].
Qed.

Lemma lstrip_printable s :
  printable s = true -> Str.lstrip urllib.c0_control_or_space s = s.
Proof.
  destruct s as [|x s]; [reflexivity|]. unfold printable. simpl.
  destruct (urllib.c0_control_or_space x); [discriminate | reflexivity].
Qed.

Lemma remove_absent c s : Str.contains c s = false -> Str.remove c s = s.
Proof.
  induction s as [|x s IH]; [reflexivity|]. simpl.
  destruct (Str.ch_eqb x c); [discriminate|]. simpl. intros Hs. rewrite IH; done.
Qed.

Lemma printable_excludes c s :
  urllib.c0_control_or_space c = true -> printable s = true ->
  Str.contains c s = false.
Proof.
  intros Hc. apply forallb_contains. rewrite Hc. reflexivity.
Qed.

Lemma find_app_absent c s1 s2 :
  Str.contains c s1 = false ->
  Str.find c (s1 +:+ String c s2) = Some (String.length s1).
Proof.
  induction s1 as [|x s1 IH]; simpl.
  - unfold Str.ch_eqb. rewrite Ascii.eqb_refl. reflexivity.
  - destruct (Str.ch_eqb x c); [discriminate|]. intros Hs. rewrite IH; done.
Qed.

Lemma partition_app_absent c s1 s2 :
  Str.contains c s1 = false ->
  Str.partition c (s1 +:+ s2) =
    let '(before, found, after) := Str.partition c s2 in
    (s1 +:+ before, found, after).
Proof.
  induction s1 as [|x s1 IH]; intros Hs.
  - change (EmptyString +:+ s2) with s2.
    destruct (Str.partition c s2) as [[b f] a]. reflexivity.
  - change (String x s1 +:+ s2) with (String x (s1 +:+ s2)).
    simpl in Hs |- *. destruct (Str.ch_eqb x c); [discriminate|].
    rewrite IH by done.
    destruct (Str.partition c s2) as [[b f] a]. reflexivity.
Qed.

(** A scheme, made of letters, digits, [+], [-] and [.], ends before the
    first [?]. *)
Lemma scheme_within_base base tail n :
  Str.find ":" (base +:+ String "?" tail) = Some n ->
  Str.forallb urllib.scheme_char (Str.take n (base +:+ String "?" tail)) = true ->
  (S n <= String.length base)%nat.
Proof.
  revert n. induction base as [|x base IH]; intros n.
  - change (EmptyString +:+ String "?" tail) with (String "?" tail). simpl.
    destruct (Str.find ":" tail); simpl; [|discriminate].
    intros [= <-]. simpl. discriminate.
  - change (String x base +:+ String "?" tail)
      with (String x (base +:+ String "?" tail)). simpl.
    destruct (Str.ch_eqb x ":").
    + intros [= <-] _. lia.
    + destruct (Str.find ":" (base +:+ String "?" tail)) as [m|] eqn:Hm;
        simpl; [|discriminate].
      intros [= <-]. simpl. intros [_ Hscheme]%andb_true_iff.
      specialize (IH m eq_refl Hscheme). lia.
Qed.

(** Taking the scheme off [base?tail] leaves [base'?tail] for a suffix
    [base'] of [base]. *)
Lemma scheme_step_shape base tail scheme url :
  match Str.find ":" (base +:+ String "?" tail), base +:+ String "?" tail with
  | Some (S i), String c0 _ =>
      if Str.is_ascii_alpha c0
         && Str.forallb urllib.scheme_char
              (Str.take (S i) (base +:+ String "?" tail))
      then (Str.lower (Str.take (S i) (base +:+ String "?" tail)),
            Str.drop (S (S i)) (base +:+ String "?" tail))
      else (EmptyString, base +:+ String "?" tail)
  | _, _ => (EmptyString, base +:+ String "?" tail)
  end = (scheme, url) ->
  exists n, url = Str.drop n base +:+ String "?" tail.
Proof.
  remember (base +:+ String "?" tail) as text eqn:Htext. intros Hstep.
  destruct (Str.find ":" text) as [[|i]|] eqn:Hfind;
    try (injection Hstep as <- <-; exists 0%nat; done).
  destruct text as [|c0 rest]; [destruct base; discriminate|].
  destruct (Str.is_ascii_alpha c0
            && Str.forallb urllib.scheme_char (Str.take (S i) (String c0 rest)))
    eqn:Hok; [|injection Hstep as <- <-; exists 0%nat; done].
  apply andb_true_iff in Hok as [_ Hscheme].
  rewrite Htext in Hfind, Hscheme, Hstep.
  pose proof (scheme_within_base base tail (S i) Hfind Hscheme) as Hlen.
  assert (Hurl : url = Str.drop (S (S i)) (base +:+ String "?" tail))
    by congruence.
  exists (S (S i)). rewrite Hurl, drop_app_within by lia. reflexivity.
Qed.

(** [_splitnetloc] takes the network location out of [base], before the
    [?], and leaves [base'?tail] for a suffix [base'] of [base]. *)
Lemma splitnetloc_shape base tail :
  Str.contains "?" base = false ->
  Str.eqb (Str.take 2 (base +:+ String "?" tail)) "//" = true ->
  exists d,
    urllib._splitnetloc (base +:+ String "?" tail) 2
      = (Str.take (d - 2) (Str.drop 2 base),
         Str.drop d base +:+ String "?" tail).
Proof.
  intros Hq Hslashes. apply bool_decide_eq_true in Hslashes.
  destruct base as [|x [|y base]]; try discriminate Hslashes.
  injection Hslashes as -> ->.
  assert (Hfind : Str.find_from "?" 2 (String "/" (String "/" base) +:+ String "?" tail)
                  = Some (S (S (String.length base)))).
  { unfold Str.find_from. simpl. rewrite find_app_absent by exact Hq. reflexivity. }
  unfold urllib._splitnetloc. cbn [foldl]. rewrite Hfind.
  match goal with
  | |- context [(_, Str.drop ?d (_ +:+ _))] => set (delim := d)
  end.
  assert (Hd : (delim <= S (S (String.length base)))%nat).
  { unfold delim.
    destruct (Str.find_from "/" 2 _), (Str.find_from "#" 2 _); lia. }
  exists delim. rewrite (drop_app_within delim) by exact Hd. f_equal.
  change (Str.drop 2 (String "/" (String "/" base) +:+ String "?" tail))
    with (base +:+ String "?" tail).
  change (Str.drop 2 (String "/" (String "/" base))) with base.
  apply take_app_within. lia.
Qed.

Lemma fragment_split base tail :
  Str.contains "#" base = false ->
  match Str.split1 "#" (base +:+ String "?" tail) with
  | [u; f] => (u, f)
  | _ => (base +:+ String "?" tail, EmptyString)
  end = (base +:+ String "?" (Str.partition "#" tail).1.1,
         (Str.partition "#" tail).2).
Proof.
  intros Hf. unfold Str.split1. rewrite (partition_app_absent _ _ _ Hf). simpl.
  destruct (Str.partition "#" tail) as [[before found] after] eqn:Hpart.
  destruct found; [reflexivity|].
  apply partition_not_found in Hpart as [-> ->]. reflexivity.
Qed.

Lemma query_split base tail :
  Str.contains "?" base = false ->
  match Str.split1 "?" (base +:+ String "?" tail) with
  | [u; q] => (u, q)
  | _ => (base +:+ String "?" tail, EmptyString)
  end = (base, tail).
Proof.
  intros Hq. unfold Str.split1. rewrite (partition_app_absent _ _ _ Hq). simpl.
  rewrite append_empty_r. reflexivity.
Qed.

(** [urlsplit] on [base?tail]: the network location and the path are cut
    out of [base], the query is the part of [tail] before the first [#],
    and the URL is refused only for its network location. *)
Lemma urlsplit_text base tail :
  printable (base +:+ String "?" tail) = true ->
  Str.contains "?" base = false -> Str.contains "#" base = false ->
  exists scheme m k n,
    urllib.urlsplit (base +:+ String "?" tail) =
      (netloc_checks (Str.take k (Str.drop m base)) ;;
       Return (scheme, Str.take k (Str.drop m base), Str.drop n base,
               (Str.partition "#" tail).1.1, (Str.partition "#" tail).2)).
Proof.
  intros Hprint Hq Hf. unfold urllib.urlsplit.
  rewrite (lstrip_printable _ Hprint). cbn [foldl urllib._UNSAFE_URL_BYTES_TO_REMOVE].
  rewrite (remove_absent "009" (base +:+ String "?" tail)),
    (remove_absent "013" (base +:+ String "?" tail)),
    (remove_absent "010" (base +:+ String "?" tail))
    by (apply printable_excludes; [reflexivity | exact Hprint]).
  match goal with
  | |- context [match Str.find ":" ?u with _ => _ end] =>
      destruct (match Str.find ":" u, u with
                | Some (S i), String c0 _ =>
                    if Str.is_ascii_alpha c0
                       && Str.forallb urllib.scheme_char (Str.take (S i) u)
                    then (Str.lower (Str.take (S i) u), Str.drop (S (S i)) u)
                    else (EmptyString, u)
                | _, _ => (EmptyString, u)
                end) as [scheme url] eqn:Hstep
  end.
  apply scheme_step_shape in Hstep as [n ->].
  pose proof (contains_drop "?" n base Hq) as Hq1.
  pose proof (contains_drop "#" n base Hf) as Hf1.
  exists scheme.
  destruct (Str.eqb (Str.take 2 (Str.drop n base +:+ String "?" tail)) "//")
    eqn:Hnet.
  - destruct (splitnetloc_shape _ tail Hq1 Hnet) as [d ->].
    rewrite !drop_drop.
    exists (n + 2)%nat, (d - 2)%nat, (n + d)%nat.
    unfold netloc_checks, mbind, outcome_bind.
    set (netloc := Str.take (d - 2) (Str.drop (n + 2) base)).
    destruct (Str.contains "[" netloc && negb (Str.contains "]" netloc)
              || Str.contains "]" netloc && negb (Str.contains "[" netloc));
      [reflexivity|].
    destruct (if Str.contains "[" netloc && Str.contains "]" netloc
              then urllib._check_bracketed_netloc netloc else Return ())
      as [[]|e]; [|reflexivity].
    cbn [obind].
    rewrite fragment_split by (apply contains_drop; exact Hf).
    rewrite query_split by (apply contains_drop; exact Hq).
    reflexivity.
  - exists 0%nat, 0%nat, n.
    unfold netloc_checks, mbind, outcome_bind. cbn [obind Str.take Str.drop].
    rewrite fragment_split by exact Hf1. rewrite query_split by exact Hq1.
    destruct base; reflexivity.
Qed.

(** The query string of a URL that [urlparse] accepts is the text between
    its first [?] and the first [#] after it. *)
Lemma urlparse_query base tail parsed :
  printable (base +:+ String "?" tail) = true ->
  Str.contains "?" base = false -> Str.contains "#" base = false ->
  urllib.urlparse (base +:+ String "?" tail) = Return parsed ->
  urllib.query parsed = (Str.partition "#" tail).1.1.
Proof.
  intros Hprint Hq Hf. unfold urllib.urlparse.
  destruct (urlsplit_text base tail Hprint Hq Hf) as (scheme & m & k & n & ->).
  unfold mbind, outcome_bind.
  destruct (netloc_checks _) as [[]|e]; cbn [obind]; [|discriminate].
  destruct (if bool_decide (scheme ∈ urllib.uses_params)
               && Str.contains ";" (Str.drop n base)
            then urllib._splitparams (Str.drop n base)
            else (Str.drop n base, EmptyString)) as [url0 params].
  intros [= <-]. reflexivity.
Qed.



End UrlText.

(** ** What decides the answer of [parse_code_from_url] *)

Section ParseCodeAnswers.
Context `{urllib.Runtime}.

Implicit Types (s url base qs : string) (c : ascii)
  (parsed : urllib.ParseResult).

(** X12: [parse_code_from_url] returns a value only when exactly one
    field of the query string named [code] carries a value, and then it
    returns the value of that field, decoded. *)
Theorem parse_code_returns_exactly url parsed value :
  urllib.urlparse url = Return parsed ->
  parse_code_from_url url = Return value <->
  exists field,
    valued_fields "code" (urllib.query parsed) = [field] /\
    field_value field = value.
Proof.
  intros Hparsed. rewrite (parse_code_from_url_spec url parsed Hparsed).
  destruct (valued_fields "code" (urllib.query parsed)) as [|f1 [|f2 fields]];
    cbn; split.
  - discriminate.
  - intros (field & Hnone & _). discriminate.
  - intros [= <-]. exists f1. split; reflexivity.
  - intros (field & [= <-] & <-). reflexivity.
  - discriminate.
  - intros (field & Hmany & _). discriminate.
Qed.

(** X13: on a URL that [urlparse] accepts, [parse_code_from_url] raises
    nothing but its two [KeyError]s, so its [code[0]] never fails: the
    one for a missing parameter exactly when no field named [code]
    carries a value, the one for multiple values exactly when several
    do. *)
Theorem parse_code_raises_exactly url parsed :
  urllib.urlparse url = Return parsed ->
  (forall e, parse_code_from_url url = Raise e ->
     e = KeyError "Parameter `code` not available!" \/
     e = KeyError "Multiple values for `code`!") /\
  (parse_code_from_url url = Raise (KeyError "Parameter `code` not available!")
   <-> valued_fields "code" (urllib.query parsed) = []) /\
  (parse_code_from_url url = Raise (KeyError "Multiple values for `code`!")
   <-> (1 < length (valued_fields "code" (urllib.query parsed)))%nat).
Proof.
  intros Hparsed. rewrite (parse_code_from_url_spec url parsed Hparsed).
  destruct (valued_fields "code" (urllib.query parsed)) as [|f1 [|f2 fields]];
    cbn; (split; [intros e [= <-] || intros e [=]; auto|]); split; split;
    try discriminate; try reflexivity; try lia; intros; lia.
Qed.

(** X14: the answer depends on the redirect URL only through the fields
    of its query string that are named [code]: two URLs that agree on
    these get the same answer, whatever their host, path, fragment and
    other parameters, [state] among them. *)
Theorem parse_code_ignores_other_parameters url1 url2 parsed1 parsed2 :
  urllib.urlparse url1 = Return parsed1 ->
  urllib.urlparse url2 = Return parsed2 ->
  fields_named "code" (urllib.query parsed1)
    = fields_named "code" (urllib.query parsed2) ->
  parse_code_from_url url1 = parse_code_from_url url2.
Proof.
  intros Hparsed1 Hparsed2 Hsame.
  rewrite (parse_code_from_url_spec url1 parsed1 Hparsed1),
    (parse_code_from_url_spec url2 parsed2 Hparsed2).
  unfold valued_fields. rewrite Hsame. reflexivity.
Qed.


Lemma contains_lstrip c (p : ascii -> bool) s :
  Str.contains c s = false -> Str.contains c (Str.lstrip p s) = false.
Proof.
  induction s as [|x s IH]; [reflexivity|]. simpl.
  destruct (p x).
  - destruct (Str.ch_eqb x c); [discriminate | exact IH].
  - intros Hs. exact Hs.
Qed.

Lemma contains_remove c a s :
  Str.contains c s = false -> Str.contains c (Str.remove a s) = false.
Proof.
  induction s as [|x s IH]; [reflexivity|]. simpl.
  destruct (Str.ch_eqb x c) eqn:Hx; [discriminate|]. intros Hs.
  destruct (Str.ch_eqb x a); simpl; [|rewrite Hx]; apply IH, Hs.
Qed.

Lemma contains_partition_before c d s :
  Str.contains c s = false -> Str.contains c (Str.partition d s).1.1 = false.
Proof.
  induction s as [|x s IH]; [reflexivity|]. simpl.
  destruct (Str.ch_eqb x c) eqn:Hx; [discriminate|]. intros Hs.
  destruct (Str.ch_eqb x d); [reflexivity|].
  destruct (Str.partition d s) as [[b f] a]. simpl. rewrite Hx.
  apply IH, Hs.
Qed.

Lemma split1_absent c s : Str.contains c s = false -> Str.split1 c s = [s].
Proof.
  intros Hs. unfold Str.split1.
  destruct (Str.partition c s) as [[before found] after] eqn:Hpart.
  destruct found.
  - exfalso. revert before after Hpart Hs.
    induction s as [|x s IH]; intros before after; simpl; [discriminate|].
    destruct (Str.ch_eqb x c); [discriminate|].
    destruct (Str.partition c s) as [[b f] a]. intros [= <- -> <-].
    apply (IH b a eq_refl).
  - apply partition_not_found in Hpart as [-> _]. reflexivity.
Qed.

(** A URL without [?] has an empty query string. *)
Lemma urlparse_without_query url parsed :
  Str.contains "?" url = false ->
  urllib.urlparse url = Return parsed ->
  urllib.query parsed = EmptyString.
Proof.
  intros Hq. unfold urllib.urlparse, urllib.urlsplit.
  cbn [foldl urllib._UNSAFE_URL_BYTES_TO_REMOVE].
  set (text := Str.remove "010" (Str.remove "013" (Str.remove "009"
                 (Str.lstrip urllib.c0_control_or_space url)))).
  assert (Htext : Str.contains "?" text = false)
    by (unfold text; repeat apply contains_remove; apply contains_lstrip, Hq).
  clearbody text.
  match goal with
  | |- context [match Str.find ":" ?u with _ => _ end] =>
      destruct (match Str.find ":" u, u with
                | Some (S i), String c0 _ =>
                    if Str.is_ascii_alpha c0
                       && Str.forallb urllib.scheme_char (Str.take (S i) u)
                    then (Str.lower (Str.take (S i) u), Str.drop (S (S i)) u)
                    else (EmptyString, u)
                | _, _ => (EmptyString, u)
                end) as [scheme rest] eqn:Hstep
  end.
  assert (Hrest : Str.contains "?" rest = false).
  { destruct (Str.find ":" text) as [[|i]|]; try (injection Hstep as <- <-; exact Htext).
    destruct text as [|c0 text']; [injection Hstep as <- <-; exact Htext|].
    destruct (Str.is_ascii_alpha c0 && _).
    - assert (rest = Str.drop (S (S i)) (String c0 text')) as -> by congruence.
      apply contains_drop, Htext.
    - injection Hstep as <- <-. exact Htext. }
  clear Hstep Htext.
  assert (Hend : forall netloc path,
    Str.contains "?" path = false ->
    (Return (netloc, path)
     ≫= (fun '(netloc, url) =>
           let '(url0, fragment) :=
             match Str.split1 "#" url with
             | [u; f] => (u, f)
             | _ => (url, EmptyString)
             end in
           let '(url1, query) :=
             match Str.split1 "?" url0 with
             | [u; q] => (u, q)
             | _ => (url0, EmptyString)
             end in
           urllib._checknetloc netloc
           ≫= (fun _ : () => Return (scheme, netloc, url1, query, fragment))))
    ≫= (fun '(scheme, netloc, url, query, fragment) =>
          let '(url0, params) :=
            if bool_decide (scheme ∈ urllib.uses_params) && Str.contains ";" url
            then urllib._splitparams url
            else (url, EmptyString) in
          Return {| urllib.scheme := scheme; urllib.netloc := netloc;
                    urllib.path := url0; urllib.params := params;
                    urllib.query := query; urllib.fragment := fragment |})
    = Return parsed ->
    urllib.query parsed = EmptyString).
  { intros netloc path Hpath. unfold mbind, outcome_bind. cbn [obind].
    assert (Hbefore : Str.contains "?"
              (match Str.split1 "#" path with
               | [u; f] => (u, f)
               | _ => (path, EmptyString)
               end).1 = false).
    { unfold Str.split1.
      pose proof (contains_partition_before "?" "#" path Hpath) as Hb.
      destruct (Str.partition "#" path) as [[b f] a]. destruct f; assumption. }
    destruct (match Str.split1 "#" path with
              | [u; f] => (u, f)
              | _ => (path, EmptyString)
              end) as [url0 fragment].
    cbn [fst] in Hbefore. rewrite (split1_absent "?" url0 Hbefore).
    destruct (urllib._checknetloc netloc) as [[]|e]; cbn [obind];
      [|discriminate].
    destruct (if bool_decide (scheme ∈ urllib.uses_params) && Str.contains ";" url0
              then urllib._splitparams url0 else (url0, EmptyString))
      as [url1 params].
    intros [= <-]. reflexivity. }
  destruct (Str.eqb (Str.take 2 rest) "//"); [|apply Hend, Hrest].
  unfold urllib._splitnetloc.
  match goal with
  | |- context [(?n, Str.drop ?d rest)] => set (netloc := n); set (delim := d)
  end.
  cbn zeta.
  destruct (Str.contains "[" netloc && negb (Str.contains "]" netloc)
            || Str.contains "]" netloc && negb (Str.contains "[" netloc));
    [discriminate|].
  destruct (if Str.contains "[" netloc && Str.contains "]" netloc
            then urllib._check_bracketed_netloc netloc else Return ())
    as [[]|e]; [|discriminate].
  apply Hend, contains_drop, Hrest.
Qed.

(** X16: a URL without [?] never yields a code: when [urlparse] accepts
    it, [parse_code_from_url] raises the [KeyError] for a missing
    parameter, also when the text after [#] has the form of a query
    string with a [code]. *)
Theorem parse_code_without_query url parsed :
  Str.contains "?" url = false ->
  urllib.urlparse url = Return parsed ->
  parse_code_from_url url = Raise (KeyError "Parameter `code` not available!").
Proof.
  intros Hq Hparsed.
  rewrite (parse_code_from_url_spec url parsed Hparsed),
    (urlparse_without_query url parsed Hq Hparsed).
  reflexivity.
Qed.

End ParseCodeAnswers.

(** ** The statements on concrete redirect URLs *)

Section ParseCodeRuns.

#[local] Existing Instance Demo.plain_runtime.

Lemma parse_code_single_code_witness :
  urllib.urlparse "https://example.com/callback?code=ABC&state=xyz"
    = Return (Demo.callback "code=ABC&state=xyz") /\
  fields_named "code" "code=ABC&state=xyz" = ["code=ABC"] /\
  valued_fields "code" "code=ABC&state=xyz" = ["code=ABC"] /\
  parse_code_from_url "https://example.com/callback?code=ABC&state=xyz"
    = Return "ABC".
Proof.
  split; [reflexivity|]. split; [reflexivity|]. split; [reflexivity|].
  apply (parse_code_single_code
           "https://example.com/callback?code=ABC&state=xyz"
           (Demo.callback "code=ABC&state=xyz") "code=ABC" "ABC");
    reflexivity.
Defined.

(** Names and values are decoded: [%2F] is [/], [+] is a space, and the
    name may be escaped too. *)
Example parse_code_decodes :
  parse_code_from_url "https://example.com/callback?c%6Fde=AQB%2Fx+y%3D"
    = Return "AQB/x y=".
Proof. reflexivity. Qed.

(** Leading spaces, and tabs (character 9) inside the text, are dropped
    by [urlsplit]; the fragment is not part of the query string. *)
Example parse_code_tolerates_whitespace :
  parse_code_from_url
    ("  https://example.com/call" +:+ String "009" "back?code=ABC#code=XYZ")
    = Return "ABC".
Proof. reflexivity. Qed.

(** A URL whose network location opens a bracket without closing it is
    refused before its query string is looked at. *)
Example parse_code_refuses_bad_host :
  parse_code_from_url "https://[example.com/callback?code=ABC"
    = Raise (ValueError "Invalid IPv6 URL").
Proof. reflexivity. Qed.

Lemma parse_code_missing_code_witness :
  fields_named "code" "state=xyz&error=access_denied" = [] /\
  parse_code_from_url "https://example.com/callback?state=xyz&error=access_denied"
    = Raise (KeyError "Parameter `code` not available!").
Proof.
  split; [reflexivity|].
  apply (parse_code_missing_code
           "https://example.com/callback?state=xyz&error=access_denied"
           (Demo.callback "state=xyz&error=access_denied"));
    reflexivity.
Defined.

(** C9 as stated fails: this query string has the parameter [code] twice,
    the second time without a value; [parse_qs] drops that occurrence
    and the function returns the value of the first, whatever the
    runtime. *)
Lemma parse_code_repeated_code_counterexample :
  (forall R : urllib.Runtime,
     @urllib.urlparse R "https://example.com/callback?code=A&code="
       = Return (Demo.callback "code=A&code=") /\
     @fields_named R "code" "code=A&code=" = ["code=A"; "code="] /\
     @parse_code_from_url R "https://example.com/callback?code=A&code="
       = Return "A") /\
  ~ (forall (R : urllib.Runtime) url parsed,
       @urllib.urlparse R url = Return parsed ->
       (1 < length (@fields_named R "code" (urllib.query parsed)))%nat ->
       @parse_code_from_url R url
         = Raise (KeyError "Multiple values for `code`!")).
Proof.
  split; [intros R; repeat split|].
  intros Hclaim.
  assert (Htwice : (1 < length (fields_named "code" "code=A&code="))%nat)
    by (vm_compute; lia).
  specialize (Hclaim Demo.plain_runtime
                     "https://example.com/callback?code=A&code="
                     (Demo.callback "code=A&code=") eq_refl Htwice).
  vm_compute in Hclaim. discriminate Hclaim.
Qed.

Lemma parse_code_multiple_valued_codes_witness :
  valued_fields "code" "code=A&code=B" = ["code=A"; "code=B"] /\
  parse_code_from_url "https://example.com/callback?code=A&code=B"
    = Raise (KeyError "Multiple values for `code`!").
Proof.
  split; [reflexivity|].
  refine (proj1 (parse_code_multiple_valued_codes
                   "https://example.com/callback?code=A&code=B"
                   (Demo.callback "code=A&code=B") _ _));
    [reflexivity | vm_compute; lia].
Defined.

Lemma parse_code_blank_code_witness :
  fields_named "code" "code=" = ["code="] /\
  parse_code_from_url "https://example.com/callback?code="
    = Raise (KeyError "Parameter `code` not available!").
Proof.
  split; [reflexivity|].
  refine (proj1 (proj2 (parse_code_blank_code
                          "https://example.com/callback?code="
                          (Demo.callback "code=") _ _ _)));
    [reflexivity | discriminate | repeat constructor].
Defined.

Lemma parse_code_returns_exactly_witness :
  parse_code_from_url "https://example.com/callback?code=ABC&state=xyz"
    = Return "ABC" <->
  exists field,
    valued_fields "code" "code=ABC&state=xyz" = [field] /\
    field_value field = "ABC".
Proof.
  exact (parse_code_returns_exactly
           "https://example.com/callback?code=ABC&state=xyz"
           (Demo.callback "code=ABC&state=xyz") "ABC" eq_refl).
Defined.

Lemma parse_code_raises_exactly_witness :
  parse_code_from_url "https://example.com/callback?code=&code=A&code=B"
    = Raise (KeyError "Multiple values for `code`!") <->
  (1 < length (valued_fields "code" "code=&code=A&code=B"))%nat.
Proof.
  exact (proj2 (proj2 (parse_code_raises_exactly
                         "https://example.com/callback?code=&code=A&code=B"
                         (Demo.callback "code=&code=A&code=B") eq_refl))).
Defined.

Lemma parse_code_ignores_other_parameters_witness :
  parse_code_from_url "https://example.com/callback?code=ABC&state=xyz"
    = parse_code_from_url "http://localhost:8080/?error=none&code=ABC#top".
Proof.
  apply (parse_code_ignores_other_parameters
           "https://example.com/callback?code=ABC&state=xyz"
           "http://localhost:8080/?error=none&code=ABC#top"
           (Demo.callback "code=ABC&state=xyz")
           {| urllib.scheme := "http"; urllib.netloc := "localhost:8080";
              urllib.path := "/"; urllib.params := EmptyString;
              urllib.query := "error=none&code=ABC";
              urllib.fragment := "top" |});
    reflexivity.
Defined.


Lemma parse_code_without_query_witness :
  parse_code_from_url "https://example.com/callback#code=ABC&state=xyz"
    = Raise (KeyError "Parameter `code` not available!").
Proof.
  apply (parse_code_without_query
           "https://example.com/callback#code=ABC&state=xyz"
           {| urllib.scheme := "https"; urllib.netloc := "example.com";
              urllib.path := "/callback"; urllib.params := EmptyString;
              urllib.query := EmptyString;
              urllib.fragment := "code=ABC&state=xyz" |});
    reflexivity.
Defined.

End ParseCodeRuns.

(** * Properties of [RefreshingCredentials] and of the module functions *)

Section ProgramFacts.
Context {Env : Type} `{Platform.t Env} `{urllib.Runtime} `{Token.Expiry Env}.

Import Program.

Implicit Types (w : world Env) (cred : RefreshingCredentials.t Env)
  (wrapper : RefreshingToken.t Env) (client : Client.t Env).

(** Unfolds a program down to the calls it makes on the outside. *)
Local Ltac run :=
  unfold prompt_for_user_token, request_client_token, refresh_user_token,
    RefreshingCredentials.__init__, RefreshingCredentials.request_client_token,
    RefreshingCredentials.user_authorisation_url,
    RefreshingCredentials.request_user_token,
    RefreshingCredentials.refresh_user_token,
    new_Credentials, call, print, webbrowser_open, input, outside, inside,
    mbind, IO_bind, mret, IO_ret;
  cbn [Client.perform Client.result env trace RefreshingCredentials._client].

(** A wrapper that a method of [RefreshingCredentials] returns holds the
    client of that object as its credentials manager. *)
Lemma issued_wrapper cred (issue : IO (RefreshingToken.t Env)) w wrapper w' :
  issue = RefreshingCredentials.request_client_token cred \/
  (exists code, issue = RefreshingCredentials.request_user_token cred code) \/
  (exists refresh_token,
     issue = RefreshingCredentials.refresh_user_token cred refresh_token) ->
  issue w = (Return wrapper, w') ->
  RefreshingToken._credentials wrapper
    = Client.as_credentials (RefreshingCredentials._client cred).
Proof.
  intros [->|[[code ->]|[refresh_token ->]]]; run;
    match goal with
    | |- context [let '(_, _) := ?c in _] => destruct c as [[token|e] env']
    end; intros [= <- <-] || discriminate; reflexivity.
Qed.

(** X6: a wrapper returned by [request_client_token], [request_user_token]
    or [refresh_user_token] of a [RefreshingCredentials], read while its
    token is expiring, asks the client of that object, and no other, for
    the refresh, and is bound to the same client afterwards. *)
Theorem issued_token_refreshes_through_its_client
    cred (issue : IO (RefreshingToken.t Env)) w wrapper w'
    (world_then : Env) (made : list (RefreshingToken.refresh_call Env)) :
  issue = RefreshingCredentials.request_client_token cred \/
  (exists code, issue = RefreshingCredentials.request_user_token cred code) \/
  (exists refresh_token,
     issue = RefreshingCredentials.refresh_user_token cred refresh_token) ->
  issue w = (Return wrapper, w') ->
  Token.is_expiring (RefreshingToken._token wrapper) world_then = true ->
  let client := RefreshingCredentials._client cred in
  let asked :=
    {| RefreshingToken.manager := Client.as_credentials client;
       RefreshingToken.argument := RefreshingToken._token wrapper |} in
  RefreshingToken.access_token
    {| RefreshingToken.self := wrapper;
       RefreshingToken.env := world_then;
       RefreshingToken.calls := made |} =
    match Client.refresh client (RefreshingToken._token wrapper) world_then with
    | (Return token', env') =>
        (Return (Token.access_token token'),
         {| RefreshingToken.self :=
              RefreshingCredentials.RefreshingToken token' client;
            RefreshingToken.env := env';
            RefreshingToken.calls := made ++ [asked] |})
    | (Raise e, env') =>
        (Raise e,
         {| RefreshingToken.self := wrapper;
            RefreshingToken.env := env';
            RefreshingToken.calls := made ++ [asked] |})
    end.
Proof.
  intros Hissue Hrun Hstale client asked.
  pose proof (issued_wrapper cred issue w wrapper w' Hissue Hrun) as Hcred.
  rewrite (access_token_stale
             {| RefreshingToken.self := wrapper;
                RefreshingToken.env := world_then;
                RefreshingToken.calls := made |} Hstale).
  unfold held, after_call, with_token, refresh_of, held, asked, client.
  cbn [RefreshingToken.self RefreshingToken.env RefreshingToken.calls].
  rewrite Hcred. cbn [Client.as_credentials Credentials.refresh].
  destruct (Client.refresh _ _ _) as [[token'|e] env']; reflexivity.
Qed.


(** X8: once the client is created, the URL built, the notice printed and
    the redirect URL pasted, whether the browser could be opened or not,
    [prompt_for_user_token] exchanges the code it parses from the pasted
    text, stripped of the white space around it, and returns a wrapper
    around the token it gets, bound to the client it created. *)
Theorem prompt_for_user_token_exchanges_pasted_code
    (client_id client_secret redirect_uri : string) (scope : option string) w
    client url (opened : bool) pasted code token (e1 e2 e3 e4 e5 e6 : Env) :
  Platform.Credentials client_id client_secret (Some redirect_uri) None (env w)
    = (Return client, e1) ->
  Client.user_authorisation_url client scope None true e1 = (Return url, e2) ->
  Platform.print "Opening browser for Spotify login..." e2 = (Return tt, e3) ->
  Platform.webbrowser_open url e3 = (Return opened, e4) ->
  Platform.input "Please paste redirect URL: " e4 = (Return pasted, e5) ->
  parse_code_from_url (Whitespace.strip pasted) = Return code ->
  Client.request_user_token client code e5 = (Return token, e6) ->
  prompt_for_user_token client_id client_secret redirect_uri scope w =
    (Return (RefreshingCredentials.RefreshingToken token client),
     {| env := e6;
        trace := trace w ++
          [Credentials_created client_id client_secret (Some redirect_uri) None;
           Client_called client (Client.User_authorisation_url scope None true);
           Printed "Opening browser for Spotify login...";
           Browser_opened url;
           Input_read "Please paste redirect URL: ";
           Client_called client (Client.Request_user_token code)] |}).
Proof.
  intros Hnew Hurl Hprint Hopen Hinput Hcode Htoken. run.
  rewrite Hnew. cbn. rewrite Hurl. cbn. rewrite Hprint. cbn.
  rewrite Hopen. cbn. rewrite Hinput. cbn. rewrite Hcode. cbn.
  rewrite Htoken. cbn. rewrite <- !app_assoc. reflexivity.
Qed.

(** X9: when the pasted text is refused by [parse_code_from_url], for a
    missing code, several codes or a malformed URL, [prompt_for_user_token]
    raises that very error and the client is not asked to exchange
    anything: the world stays as [input] left it. *)
Theorem prompt_for_user_token_refuses_pasted_url
    (client_id client_secret redirect_uri : string) (scope : option string) w
    client url (opened : bool) pasted e (e1 e2 e3 e4 e5 : Env) :
  Platform.Credentials client_id client_secret (Some redirect_uri) None (env w)
    = (Return client, e1) ->
  Client.user_authorisation_url client scope None true e1 = (Return url, e2) ->
  Platform.print "Opening browser for Spotify login..." e2 = (Return tt, e3) ->
  Platform.webbrowser_open url e3 = (Return opened, e4) ->
  Platform.input "Please paste redirect URL: " e4 = (Return pasted, e5) ->
  parse_code_from_url (Whitespace.strip pasted) = Raise e ->
  prompt_for_user_token client_id client_secret redirect_uri scope w =
    (Raise e,
     {| env := e5;
        trace := trace w ++
          [Credentials_created client_id client_secret (Some redirect_uri) None;
           Client_called client (Client.User_authorisation_url scope None true);
           Printed "Opening browser for Spotify login...";
           Browser_opened url;
           Input_read "Please paste redirect URL: "] |}).
Proof.
  intros Hnew Hurl Hprint Hopen Hinput Hcode. run.
  rewrite Hnew. cbn. rewrite Hurl. cbn. rewrite Hprint. cbn.
  rewrite Hopen. cbn. rewrite Hinput. cbn. rewrite Hcode. cbn.
  rewrite <- !app_assoc. reflexivity.
Qed.

(** X10: when the module function [refresh_user_token] returns a wrapper,
    it has created one client, with neither redirect URI nor sender,
    asked it once for a token for the given refresh token and nothing
    else; the wrapper holds the token the client gave and is bound to
    that client. *)
Theorem refresh_user_token_returns
    (client_id client_secret refresh_token : string) w wrapper w' :
  refresh_user_token client_id client_secret refresh_token w
    = (Return wrapper, w') ->
  exists client (e1 : Env),
    Platform.Credentials client_id client_secret None None (env w)
      = (Return client, e1) /\
    Client.refresh_user_token client refresh_token e1
      = (Return (RefreshingToken._token wrapper), env w') /\
    wrapper
      = RefreshingCredentials.RefreshingToken (RefreshingToken._token wrapper)
          client /\
    trace w' = trace w ++
      [Credentials_created client_id client_secret None None;
       Client_called client (Client.Refresh_user_token refresh_token)].
Proof.
  run.
  destruct (Platform.Credentials _ _ _ _ _) as [[client|e] e1] eqn:Hnew; cbn;
    [|discriminate].
  destruct (Client.refresh_user_token _ _ _) as [[token|e] e2] eqn:Hcall; cbn;
    [|discriminate].
  intros [= <- <-]. exists client, e1. cbn. rewrite <- app_assoc.
  repeat split. exact Hcall.
Qed.

(** X11: when the module function [request_client_token] returns a
    wrapper, it has created one client, with neither redirect URI nor
    sender, asked it once for a client token and nothing else; the
    wrapper holds the token the client gave and is bound to that
    client. *)
Theorem request_client_token_returns
    (client_id client_secret : string) w wrapper w' :
  request_client_token client_id client_secret w = (Return wrapper, w') ->
  exists client (e1 : Env),
    Platform.Credentials client_id client_secret None None (env w)
      = (Return client, e1) /\
    Client.request_client_token client e1
      = (Return (RefreshingToken._token wrapper), env w') /\
    wrapper
      = RefreshingCredentials.RefreshingToken (RefreshingToken._token wrapper)
          client /\
    trace w' = trace w ++
      [Credentials_created client_id client_secret None None;
       Client_called client Client.Request_client_token].
Proof.
  run.
  destruct (Platform.Credentials _ _ _ _ _) as [[client|e] e1] eqn:Hnew; cbn;
    [|discriminate].
  destruct (Client.request_client_token _ _) as [[token|e] e2] eqn:Hcall; cbn;
    [|discriminate].
  intros [= <- <-]. exists client, e1. cbn. rewrite <- app_assoc.
  repeat split. exact Hcall.
Qed.

End ProgramFacts.

(** ** The statements on the stage

    On [Stage.opening pasted script] there is no browser, the user
    pastes [pasted] and the server answers with [script]. *)

Section ProgramRuns.

Import Program.

#[local] Existing Instance Stage.platform.
#[local] Existing Instance Stage.expiry.
#[local] Existing Instance Demo.plain_runtime.

Lemma issued_token_refreshes_through_its_client_witness :
  let client := Stage.client "f3a1" in
  let cred := {| RefreshingCredentials._client := client |} in
  let wrapper := RefreshingCredentials.RefreshingToken Demo.old_token client in
  RefreshingCredentials.refresh_user_token cred "AQD-refresh-1"
    {| env := Stage.opening EmptyString [Return Demo.old_token]; trace := [] |}
    = (Return wrapper,
       {| env := Stage.scene 1 [] EmptyString [];
          trace := [Client_called client
                      (Client.Refresh_user_token "AQD-refresh-1")] |}) /\
  RefreshingToken.access_token
    {| RefreshingToken.self := wrapper;
       RefreshingToken.env := Stage.scene 3590 [Return Demo.new_token] EmptyString [];
       RefreshingToken.calls := [] |} =
    (Return "BQC-new",
     {| RefreshingToken.self :=
          RefreshingCredentials.RefreshingToken Demo.new_token client;
        RefreshingToken.env := Stage.scene 3591 [] EmptyString [];
        RefreshingToken.calls :=
          [{| RefreshingToken.manager := Client.as_credentials client;
              RefreshingToken.argument := Demo.old_token |}] |}).
Proof.
  intros client cred wrapper. split; [reflexivity|].
  apply (issued_token_refreshes_through_its_client cred
           (RefreshingCredentials.refresh_user_token cred "AQD-refresh-1")
           {| env := Stage.opening EmptyString [Return Demo.old_token];
              trace := [] |}
           wrapper
           {| env := Stage.scene 1 [] EmptyString [];
              trace := [Client_called client
                          (Client.Refresh_user_token "AQD-refresh-1")] |}
           (Stage.scene 3590 [Return Demo.new_token] EmptyString []) []).
  - right. right. exists "AQD-refresh-1". reflexivity.
  - reflexivity.
  - reflexivity.
Defined.

Lemma prompt_for_user_token_exchanges_pasted_code_witness :
  let pasted :=
    "  https://example.com/callback?code=ABC&state=xyz " +:+ String "010" EmptyString in
  let client := Stage.client "f3a1" in
  let url :=
    "https://accounts.example.com/authorize?client_id=f3a1&show_dialog=true" in
  let shown :=
    ["Opening browser for Spotify login..."; "Please paste redirect URL: "] in
  Whitespace.strip pasted = "https://example.com/callback?code=ABC&state=xyz" /\
  prompt_for_user_token "f3a1" "s3cr3t" "https://example.com/callback"
    (Some "user-read-email")
    {| env := Stage.opening pasted [Return Demo.old_token]; trace := [] |} =
    (Return (RefreshingCredentials.RefreshingToken Demo.old_token client),
     {| env := Stage.scene 1 [] pasted shown;
        trace :=
          [Credentials_created "f3a1" "s3cr3t"
             (Some "https://example.com/callback") None;
           Client_called client
             (Client.User_authorisation_url (Some "user-read-email") None true);
           Printed "Opening browser for Spotify login...";
           Browser_opened url;
           Input_read "Please paste redirect URL: ";
           Client_called client (Client.Request_user_token "ABC")] |}).
Proof.
  intros pasted client url shown. split; [reflexivity|].
  apply (prompt_for_user_token_exchanges_pasted_code
           "f3a1" "s3cr3t" "https://example.com/callback" (Some "user-read-email")
           {| env := Stage.opening pasted [Return Demo.old_token]; trace := [] |}
           client url false pasted "ABC" Demo.old_token
           (Stage.opening pasted [Return Demo.old_token])
           (Stage.opening pasted [Return Demo.old_token])
           (Stage.scene 0 [Return Demo.old_token] pasted
              ["Opening browser for Spotify login..."])
           (Stage.scene 0 [Return Demo.old_token] pasted
              ["Opening browser for Spotify login..."])
           (Stage.scene 0 [Return Demo.old_token] pasted shown)
           (Stage.scene 1 [] pasted shown));
    reflexivity.
Defined.

Lemma prompt_for_user_token_refuses_pasted_url_witness :
  let pasted := "https://example.com/callback?error=access_denied&state=xyz" in
  let client := Stage.client "f3a1" in
  let url :=
    "https://accounts.example.com/authorize?client_id=f3a1&show_dialog=true" in
  let shown :=
    ["Opening browser for Spotify login..."; "Please paste redirect URL: "] in
  prompt_for_user_token "f3a1" "s3cr3t" "https://example.com/callback" None
    {| env := Stage.opening pasted [Return Demo.old_token]; trace := [] |} =
    (Raise (KeyError "Parameter `code` not available!"),
     {| env := Stage.scene 0 [Return Demo.old_token] pasted shown;
        trace :=
          [Credentials_created "f3a1" "s3cr3t"
             (Some "https://example.com/callback") None;
           Client_called client (Client.User_authorisation_url None None true);
           Printed "Opening browser for Spotify login...";
           Browser_opened url;
           Input_read "Please paste redirect URL: "] |}).
Proof.
  intros pasted client url shown.
  apply (prompt_for_user_token_refuses_pasted_url
           "f3a1" "s3cr3t" "https://example.com/callback" None
           {| env := Stage.opening pasted [Return Demo.old_token]; trace := [] |}
           client url false pasted
           (KeyError "Parameter `code` not available!")
           (Stage.opening pasted [Return Demo.old_token])
           (Stage.opening pasted [Return Demo.old_token])
           (Stage.scene 0 [Return Demo.old_token] pasted
              ["Opening browser for Spotify login..."])
           (Stage.scene 0 [Return Demo.old_token] pasted
              ["Opening browser for Spotify login..."])
           (Stage.scene 0 [Return Demo.old_token] pasted shown));
    reflexivity.
Defined.

Lemma refresh_user_token_returns_witness :
  let w := {| env := Stage.opening EmptyString [Return Demo.new_token];
              trace := [] |} in
  let wrapper :=
    RefreshingCredentials.RefreshingToken Demo.new_token (Stage.client "f3a1") in
  exists client (e1 : Stage.world),
    Platform.Credentials "f3a1" "s3cr3t" None None (env w) = (Return client, e1) /\
    Client.refresh_user_token client "AQD-refresh-1" e1
      = (Return (RefreshingToken._token wrapper), Stage.scene 1 [] EmptyString []) /\
    wrapper
      = RefreshingCredentials.RefreshingToken (RefreshingToken._token wrapper)
          client /\
    [Credentials_created "f3a1" "s3cr3t" None None;
     Client_called (Stage.client "f3a1") (Client.Refresh_user_token "AQD-refresh-1")]
    = [] ++
      [Credentials_created "f3a1" "s3cr3t" None None;
       Client_called client (Client.Refresh_user_token "AQD-refresh-1")].
Proof.
  intros w wrapper.
  apply (refresh_user_token_returns "f3a1" "s3cr3t" "AQD-refresh-1" w wrapper
           {| env := Stage.scene 1 [] EmptyString [];
              trace := [Credentials_created "f3a1" "s3cr3t" None None;
                        Client_called (Stage.client "f3a1")
                          (Client.Refresh_user_token "AQD-refresh-1")] |}).
  reflexivity.
Defined.

Lemma request_client_token_returns_witness :
  let w := {| env := Stage.opening EmptyString [Return Demo.new_token];
              trace := [] |} in
  let wrapper :=
    RefreshingCredentials.RefreshingToken Demo.new_token (Stage.client "f3a1") in
  exists client (e1 : Stage.world),
    Platform.Credentials "f3a1" "s3cr3t" None None (env w) = (Return client, e1) /\
    Client.request_client_token client e1
      = (Return (RefreshingToken._token wrapper), Stage.scene 1 [] EmptyString []) /\
    wrapper
      = RefreshingCredentials.RefreshingToken (RefreshingToken._token wrapper)
          client /\
    [Credentials_created "f3a1" "s3cr3t" None None;
     Client_called (Stage.client "f3a1") Client.Request_client_token]
    = [] ++
      [Credentials_created "f3a1" "s3cr3t" None None;
       Client_called client Client.Request_client_token].
Proof.
  intros w wrapper.
  apply (request_client_token_returns "f3a1" "s3cr3t" w wrapper
           {| env := Stage.scene 1 [] EmptyString [];
              trace := [Credentials_created "f3a1" "s3cr3t" None None;
                        Client_called (Stage.client "f3a1")
                          Client.Request_client_token] |}).
  reflexivity.
Defined.

End ProgramRuns.
